(** * TubeLingo: the client state machine of [src/App.jsx]

    A shallow embedding of the event handlers of [TubeLingoApp] and the
    properties of its quiz-session builder, transcript synchronizer,
    progress accumulator and analyze request.

    How the React component is read:
    - the sixteen [useState] cells are the fields of [State];
    - a handler runs against the state of the render it was created in (its
      closure) and emits an ordered list of setter calls, [update]s; the next
      state is obtained by applying them in order ([commit]).  A setter
      that was given a function ([setScore(s => s + 1)]) carries that function;
    - JavaScript arrays that are shared by reference live in a [Store] of
      array objects; [Array.prototype.push] and [Array.prototype.sort] write
      to the store, [filter], [slice] and [map] allocate or return new values;
    - what a handler does to the outside ([alert], [console.error],
      [seekTo], [fetch]) is a list of [effect]s;
    - [Math.random()], the current date and the outcome of [fetch] are inputs;
      the body of an [ok] answer is [null] or has the fields the collaborator
      documents, each possibly missing ([AnalysisData]): the code stores the
      body without validating it, and bodies of another shape are left out;
    - which handler a view offers, and when a control is disabled, is read
      off the markup: [react] is the reaction of the whole component to one
      event, [reachable] the worlds it can get to from its initial state.

    Numbers: experience points, scores and indices are integers far below
    2^53, where JavaScript arithmetic on numbers is exact, and are modelled
    by [Z] and [nat]; timestamps are finite numbers, modelled by [Q], on
    which the only operation of the code is comparison. *)

From Stdlib Require Import ZArith QArith Lia Permutation Sorted.
From stdpp Require Import base option list strings.

Set Primitive Projections.

Local Open Scope string_scope.
Local Open Scope list_scope.
Local Open Scope nat_scope.

(** ** Data model *)

(** [view]: one of the seven names given to [setView]. *)
Inductive View :=
| home | analyzing | study | quiz_setup | quiz | result | dashboard.

(** [activeTab]: ['study'] or ['words']. *)
Inductive Tab := tab_study | tab_words.

(** A line of [script]: [{time, text, kr}]. *)
Record TranscriptLine := {
  time : Q;
  text : string;
  kr : string
}.

(** An entry of [vocabulary]: [{word, type, meaning}]. *)
Record VocabularyEntry := {
  word : string;
  type : string;
  meaning : string
}.

(** [{ ...wordObj, date }]: the copy of an entry kept in [savedWords]. *)
Record SavedWord := {
  saved : VocabularyEntry;
  date : string
}.

(** An entry of [quizBank]:
    [{question, options, answer, rationale, difficulty}]. *)
Record QuizQuestion := {
  question : string;
  options : list string;
  answer : Z;
  rationale : string;
  difficulty : string
}.

(** [{ ...q, id: i }]: the copy of a bank entry placed in [quizSession]. *)
Record SessionQuestion := {
  base : QuizQuestion;
  id : nat
}.

(** [quizConfig]: [{count, difficulty}]. *)
Record QuizConfig := {
  count : nat;
  cfg_difficulty : string
}.

(** The address of an array object in the [Store]. *)
Abbreviation loc := nat (only parsing).

(** The arrays of bank questions that exist, by address.  Only arrays of
    bank entries are ever mutated in place or aliased by the code. *)
Abbreviation Store := (list (list QuizQuestion)) (only parsing).

(** [activeData]: the server's answer with [thumbnail] added.  [script],
    [vocabulary] and [quizBank] may be missing from the payload (the code
    guards each with [?.] or [!]); [quizBank] is a reference. *)
Record StudyBundle := {
  videoId : string;
  script : option (list TranscriptLine);
  vocabulary : option (list VocabularyEntry);
  quizBank : option loc;
  thumbnail : string
}.

(** [userStats]. *)
Record UserStats := {
  xp : Z;
  streak : Z;
  todayXp : Z;
  goalXp : Z;
  savedWords : list SavedWord
}.

(** The [useState] cells of [TubeLingoApp], in the order of the source. *)
Record State := {
  view : View;
  activeTab : Tab;
  urlInput : string;
  activeData : option StudyBundle;
  isLoading : bool;
  errorMsg : string;
  userStats : UserStats;
  playing : bool;
  currentScriptIdx : nat;
  quizConfig : QuizConfig;
  quizSession : list SessionQuestion;
  currentQIdx : nat;
  selectedOpt : option Z;
  isAnswered : bool;
  isCorrect : bool;
  score : Z
}.

(** The initial values given to [useState]. *)
Definition initial_userStats : UserStats :=
  {| xp := 1250; streak := 12; todayXp := 40; goalXp := 100;
     savedWords := [] |}.

Definition initial_state : State :=
  {| view := home;
     activeTab := tab_study;
     urlInput := "";
     activeData := None;
     isLoading := false;
     errorMsg := "";
     userStats := initial_userStats;
     playing := false;
     currentScriptIdx := 0;
     quizConfig := {| count := 5; cfg_difficulty := "normal" |};
     quizSession := [];
     currentQIdx := 0;
     selectedOpt := None;
     isAnswered := false;
     isCorrect := false;
     score := 0 |}.

(** ** Setter calls and their application *)

(** One call of a [useState] setter.  [setUserStats], [setCurrentQIdx] and
    [setScore] are called with an updater function in the source; where
    the source passes them a plain value ([setScore(0)]) the update carries
    the constant function. *)
Inductive update :=
| SetView (v : View)
| SetActiveTab (t : Tab)
| SetUrlInput (u : string)
| SetActiveData (d : option StudyBundle)
| SetIsLoading (b : bool)
| SetErrorMsg (m : string)
| SetUserStats (f : UserStats -> UserStats)
| SetPlaying (b : bool)
| SetCurrentScriptIdx (i : nat)
| SetQuizConfig (c : QuizConfig)
| SetQuizSession (qs : list SessionQuestion)
| SetCurrentQIdx (f : nat -> nat)
| SetSelectedOpt (o : option Z)
| SetIsAnswered (b : bool)
| SetIsCorrect (b : bool)
| SetScore (f : Z -> Z).

Definition apply_update (u : update) (s : State) : State :=
  let '(Build_State vw tb url ad ld em us pl ci qc qs qi so ia ic sc) := s in
  match u with
  | SetView v => Build_State v tb url ad ld em us pl ci qc qs qi so ia ic sc
  | SetActiveTab t => Build_State vw t url ad ld em us pl ci qc qs qi so ia ic sc
  | SetUrlInput x => Build_State vw tb x ad ld em us pl ci qc qs qi so ia ic sc
  | SetActiveData d => Build_State vw tb url d ld em us pl ci qc qs qi so ia ic sc
  | SetIsLoading b => Build_State vw tb url ad b em us pl ci qc qs qi so ia ic sc
  | SetErrorMsg m => Build_State vw tb url ad ld m us pl ci qc qs qi so ia ic sc
  | SetUserStats f => Build_State vw tb url ad ld em (f us) pl ci qc qs qi so ia ic sc
  | SetPlaying b => Build_State vw tb url ad ld em us b ci qc qs qi so ia ic sc
  | SetCurrentScriptIdx i => Build_State vw tb url ad ld em us pl i qc qs qi so ia ic sc
  | SetQuizConfig c => Build_State vw tb url ad ld em us pl ci c qs qi so ia ic sc
  | SetQuizSession l => Build_State vw tb url ad ld em us pl ci qc l qi so ia ic sc
  | SetCurrentQIdx f => Build_State vw tb url ad ld em us pl ci qc qs (f qi) so ia ic sc
  | SetSelectedOpt o => Build_State vw tb url ad ld em us pl ci qc qs qi o ia ic sc
  | SetIsAnswered b => Build_State vw tb url ad ld em us pl ci qc qs qi so b ic sc
  | SetIsCorrect b => Build_State vw tb url ad ld em us pl ci qc qs qi so ia b sc
  | SetScore f => Build_State vw tb url ad ld em us pl ci qc qs qi so ia ic (f sc)
  end.

(** The state of the next render: the setter calls applied in order. *)
Definition commit (us : list update) (s : State) : State :=
  foldl (fun acc u => apply_update u acc) s us.

(** What a handler does outside the component state. *)
Inductive effect :=
| Alert (message : string)
| ConsoleError (message : string)
| SeekTo (seconds : Q)
| Fetch (url : string).

(** ** Progress accumulator *)

(** [const gainedXp = score * 10 + 20;] *)
Definition gainedXp (s : State) : Z := (score s * 10 + 20)%Z.

(** [prev => ({...prev, xp: prev.xp + gainedXp,
               todayXp: prev.todayXp + gainedXp})]. *)
Definition add_xp (gained : Z) (prev : UserStats) : UserStats :=
  {| xp := (xp prev + gained)%Z;
     streak := streak prev;
     todayXp := (todayXp prev + gained)%Z;
     goalXp := goalXp prev;
     savedWords := savedWords prev |}.

(** [finishQuiz]:
    [const gainedXp = score * 10 + 20;
     setUserStats(prev => ({...prev, xp: prev.xp + gainedXp,
                            todayXp: prev.todayXp + gainedXp}));
     setView('result');] *)
Definition finishQuiz (s : State) : list update :=
  [SetUserStats (add_xp (gainedXp s)); SetView result].

(** [nextQuestion]:
    [if (currentQIdx < quizSession.length - 1) {
       setCurrentQIdx(p => p + 1); setSelectedOpt(null); setIsAnswered(false);
     } else { finishQuiz(); }] *)
Definition nextQuestion (s : State) : list update :=
  if (Z.of_nat (currentQIdx s) <? Z.of_nat (length (quizSession s)) - 1)%Z
  then [SetCurrentQIdx S; SetSelectedOpt None; SetIsAnswered false]
  else finishQuiz s.

(** [w => w.word === wordObj.word]. *)
Definition same_word (wordObj : VocabularyEntry) (w : SavedWord) : bool :=
  bool_decide (word (saved w) = word wordObj).

(** [prev => ({...prev, savedWords: [...prev.savedWords, w]})]. *)
Definition append_word (w : SavedWord) (prev : UserStats) : UserStats :=
  {| xp := xp prev;
     streak := streak prev;
     todayXp := todayXp prev;
     goalXp := goalXp prev;
     savedWords := savedWords prev ++ [w] |}.

(** [saveWord(wordObj)]:
    [if (!userStats.savedWords.find(w => w.word === wordObj.word)) {
       setUserStats(prev => ({...prev,
         savedWords: [...prev.savedWords,
                      {...wordObj, date: new Date().toLocaleDateString()}]}));
     }]
    [today] is the value of [new Date().toLocaleDateString()]. *)
Definition saveWord (today : string) (wordObj : VocabularyEntry) (s : State)
  : list update :=
  match List.find (same_word wordObj) (savedWords (userStats s)) with
  | Some _ => []
  | None => [SetUserStats (append_word {| saved := wordObj; date := today |})]
  end.

(** ** Quiz runner *)

(** [checkAnswer]:
    [const currentQ = quizSession[currentQIdx];
     const correct = currentQ.answer === selectedOpt;
     setIsCorrect(correct); setIsAnswered(true);
     if (correct) setScore(s => s + 1);]
    [None]: [currentQ] is [undefined] and reading [.answer] throws. *)
Definition checkAnswer (s : State) : option (list update) :=
  currentQ ← quizSession s !! currentQIdx s;
  let correct := bool_decide (Some (answer (base currentQ)) = selectedOpt s) in
  Some ([SetIsCorrect correct; SetIsAnswered true]
        ++ (if correct then [SetScore Z.succ] else [])).

(** ** Player *)

(** [startQuizSetup]: [setPlaying(false); setView('quiz_setup');] *)
Definition startQuizSetup : list update :=
  [SetPlaying false; SetView quiz_setup].

(** [handleSeek(seconds, index)]; [mounted] tells whether
    [playerRef.current] is set. *)
Definition handleSeek (mounted : bool) (seconds : Q) (index : nat)
  : list update * list effect :=
  if mounted
  then ([SetPlaying true; SetCurrentScriptIdx index], [SeekTo seconds])
  else ([], []).

(** ** Transcript synchronizer *)

(** [Array.prototype.findIndex]: the index of the first element that
    satisfies [p], or [-1]. *)
Fixpoint findIndex_from {A : Type} (p : A -> bool) (l : list A) (i : Z) : Z :=
  match l with
  | [] => (-1)%Z
  | x :: l' => if p x then i else findIndex_from p l' (i + 1)%Z
  end.

Definition findIndex {A : Type} (p : A -> bool) (l : list A) : Z :=
  findIndex_from p l 0%Z.

(** [line.time > playedSeconds]. *)
Definition later_than (playedSeconds : Q) (line : TranscriptLine) : bool :=
  negb (Qle_bool (time line) playedSeconds).

(** The [onProgress] callback of the player, on a transcript:
    [const idx = activeData.script.findIndex(line => line.time > playedSeconds);
     if (idx !== -1 && idx - 1 !== currentScriptIdx) {
       setCurrentScriptIdx(Math.max(0, idx - 1));
     }] *)
Definition sync (lines : list TranscriptLine) (current : nat)
  (playedSeconds : Q) : list update :=
  let idx := findIndex (later_than playedSeconds) lines in
  if negb (idx =? -1)%Z && negb (idx - 1 =? Z.of_nat current)%Z
  then [SetCurrentScriptIdx (Z.to_nat (Z.max 0 (idx - 1)))]
  else [].

(** [onProgress({ playedSeconds })]; [if (!activeData.script) return;]
    comes first.  [None]: [activeData] is [null] and reading [.script]
    throws (the callback only exists while the study view, which reads
    [activeData.videoId], is rendered). *)
Definition onProgress (playedSeconds : Q) (s : State) : option (list update) :=
  d ← activeData s;
  match script d with
  | None => Some []
  | Some lines => Some (sync lines (currentScriptIdx s) playedSeconds)
  end.

(** ** Analyze request *)

(** The parsed body of a successful answer, [data], when it is not
    [null]: the fields the code reads, as the collaborator documents them
    ([script], [vocabulary] and [quizBank] arrays of line, entry and
    question objects), each of them possibly missing ([None]; a body that
    is a number, a string or an array has none of them).  The code stores
    the body as it comes, without validating it: a body whose fields have
    another shape (a [script] that is not an array, a [null] entry in
    [quizBank]) is not described here, and what is proved of the stored
    bundle is proved of answers of the documented shape.  [data_videoId]
    is the text the template literals make of [data.videoId], which is read
    nowhere else. *)
Record AnalysisData := {
  data_videoId : string;
  data_script : option (list TranscriptLine);
  data_vocabulary : option (list VocabularyEntry);
  data_quizBank : option (list QuizQuestion)
}.

(** [await response.json()] and the first reading of a property of its
    value ([errData.detail], [data.videoId]): the value read; or the
    rejection of [json()], whose error carries a message (the body is not
    JSON); or JSON [null], which parses, and on which reading the property
    throws a [TypeError] with the engine's message. *)
Inductive parsed (A : Type) :=
| Parsed (a : A)
| Unparsable (message : string)
| NullBody (message : string).
Arguments Parsed {A} a.
Arguments Unparsable {A} message.
Arguments NullBody {A} message.

(** How [await fetch(...)] ends.  For a response that is not [ok] only
    the [detail] field of the body is read: [None] when it is absent (or
    [null], [false] or [0], which are falsy like the empty string). *)
Inductive fetch_outcome :=
| Rejected (message : string)
| NotOk (errData : parsed (option string))
| Ok (data : parsed AnalysisData).

Definition default_detail : string := "분석에 실패했습니다.".

(** [errData.detail || '분석에 실패했습니다.']: a missing or empty
    [detail] is falsy. *)
Definition detail_or_default (detail : option string) : string :=
  match detail with
  | Some d => if bool_decide (d = "") then default_detail else d
  | None => default_detail
  end.

(** The [try] block up to the call of [setActiveData]: the value of
    [data], or the message of the error thrown on the way ([fetch]
    rejected; the body could not be parsed; the body is [null] and
    [errData.detail] or [data.videoId] throws; or
    [throw new Error(errData.detail || '...')] for a response that is not
    [ok]). *)
Definition awaited (o : fetch_outcome) : AnalysisData + string :=
  match o with
  | Rejected m => inr m
  | NotOk (Unparsable m) => inr m
  | NotOk (NullBody m) => inr m
  | NotOk (Parsed detail) => inr (detail_or_default detail)
  | Ok (Unparsable m) => inr m
  | Ok (NullBody m) => inr m
  | Ok (Parsed data) => inl data
  end.

Definition thumbnail_of (vid : string) : string :=
  String.append "https://img.youtube.com/vi/"
    (String.append vid "/mqdefault.jpg").

(** [{ ...data, thumbnail: ... }]; the bank array created by the parser
    is given the next free address of the store. *)
Definition normalize (data : AnalysisData) (st : Store) : StudyBundle * Store :=
  match data_quizBank data with
  | Some bank =>
      ({| videoId := data_videoId data; script := data_script data;
          vocabulary := data_vocabulary data; quizBank := Some (length st);
          thumbnail := thumbnail_of (data_videoId data) |}, st ++ [bank])
  | None =>
      ({| videoId := data_videoId data; script := data_script data;
          vocabulary := data_vocabulary data; quizBank := None;
          thumbnail := thumbnail_of (data_videoId data) |}, st)
  end.

(** What a handler produces: setter calls, outside effects and the store
    of arrays it leaves. *)
Record Reaction := {
  updates : list update;
  effects : list effect;
  arrays : Store
}.

(** [handleUrlSubmit] up to its [await fetch(...)]:
    [if (!urlInput) return;
     setIsLoading(true); setErrorMsg(''); setView('analyzing');] *)
Definition submit_guard (s : State) : bool := bool_decide (urlInput s = "").

Definition handleUrlSubmit_begin (s : State) (st : Store) : Reaction :=
  if submit_guard s
  then {| updates := []; effects := []; arrays := st |}
  else {| updates := [SetIsLoading true; SetErrorMsg ""; SetView analyzing];
          effects := [Fetch (urlInput s)]; arrays := st |}.

(** [handleUrlSubmit] from the moment the request has ended in [o]:
    [setActiveData({...}); setView('study'); setPlaying(true);] when
    nothing was thrown, else
    [console.error(err); setErrorMsg(err.message); setView('home');],
    and in both cases [setIsLoading(false)] from [finally]. *)
Definition handleUrlSubmit_settle (o : fetch_outcome) (st : Store) : Reaction :=
  match awaited o with
  | inl data =>
      let '(bundle, st') := normalize data st in
      {| updates := [SetActiveData (Some bundle); SetView study; SetPlaying true]
                    ++ [SetIsLoading false];
         effects := []; arrays := st' |}
  | inr m =>
      {| updates := [SetErrorMsg m; SetView home] ++ [SetIsLoading false];
         effects := [ConsoleError m]; arrays := st |}
  end.

(** The whole of [handleUrlSubmit] for a request that ends in [o]. *)
Definition handleUrlSubmit (o : fetch_outcome) (s : State) (st : Store)
  : Reaction :=
  if submit_guard s
  then {| updates := []; effects := []; arrays := st |}
  else
    let b := handleUrlSubmit_begin s st in
    let e := handleUrlSubmit_settle o (arrays b) in
    {| updates := updates b ++ updates e;
       effects := effects b ++ effects e;
       arrays := arrays e |}.

(** ** Quiz session builder *)

(** A value of [Math.random()]: a number in [[0, 1)], as the fraction
    [num / den]. *)
Record Draw := {
  num : N;
  den : N;
  below_one : (num <? den)%N = true
}.

(** [Math.floor(Math.random() * questions.length)], the product taken
    exactly. *)
Definition random_index (r : Draw) (len : nat) : nat :=
  N.to_nat (num r * N.of_nat len / den r).

(** [Array.prototype.sort] with the comparator
    [() => Math.random() - 0.5]: the order it leaves depends on the
    sorting algorithm of the JavaScript engine and on the draws its
    comparisons consume ([random], from position [pos] on). *)
Definition Engine : Type :=
  (nat -> Draw) -> nat -> list QuizQuestion -> list QuizQuestion.

(** Array objects in the store. *)
Definition array_length (a : loc) (st : Store) : option nat :=
  length <$> st !! a.

(** [a[i]]; [None] stands for [undefined]. *)
Definition array_get (a : loc) (i : nat) (st : Store) : option QuizQuestion :=
  arr ← st !! a; arr !! i.

(** [a.push(q)] writes to the array object itself. *)
Definition array_push (a : loc) (q : QuizQuestion) (st : Store) : option Store :=
  arr ← st !! a; Some (<[a := arr ++ [q]]> st).

(** [a.filter(p)] creates a new array object; its address is returned. *)
Definition array_filter (p : QuizQuestion -> bool) (a : loc) (st : Store)
  : option (loc * Store) :=
  arr ← st !! a; Some (length st, st ++ [List.filter p arr]).

(** [a.sort(cmp)] sorts the array object in place (and returns [a]). *)
Definition array_sort (E : Engine) (random : nat -> Draw) (pos : nat)
  (a : loc) (st : Store) : option Store :=
  arr ← st !! a; Some (<[a := E random pos arr]> st).

(** [q.difficulty === quizConfig.difficulty]. *)
Definition matches (cfg : QuizConfig) (q : QuizQuestion) : bool :=
  bool_decide (difficulty q = cfg_difficulty cfg).

(** [while (questions.length < quizConfig.count) {
       questions.push(questions[Math.floor(Math.random() * questions.length)]);
     }]
    [pos] counts the calls of [Math.random()] made so far.  [None]: the
    fuel ran out, or the element read is [undefined]. *)
Fixpoint pad_loop (fuel : nat) (random : nat -> Draw) (pos : nat) (cnt : nat)
  (questions : loc) (st : Store) : option (Store * nat) :=
  match fuel with
  | O => None
  | S fuel' =>
      len ← array_length questions st;
      if len <? cnt then
        q ← array_get questions (random_index (random pos) len) st;
        st' ← array_push questions q st;
        pad_loop fuel' random (S pos) cnt questions st'
      else Some (st, pos)
  end.

(** [.slice(0, quizConfig.count).map((q, i) => ({ ...q, id: i }))]. *)
Definition number_questions (cnt : nat) (arr : list QuizQuestion)
  : list SessionQuestion :=
  imap (fun i q => {| base := q; id := i |}) (take cnt arr).

Definition notice : string := "생성된 퀴즈 데이터가 없습니다.".

(** The updates at the end of [generateQuiz]. *)
Definition start_session (sessionQuestions : list SessionQuestion)
  : list update :=
  [SetQuizSession sessionQuestions; SetCurrentQIdx (fun _ => 0);
   SetScore (fun _ => 0%Z); SetSelectedOpt None; SetIsAnswered false;
   SetView quiz].

(** [generateQuiz].  [None]: the loop ran out of fuel, an [undefined]
    element was read, or [quizBank] is not an address of the store. *)
Definition generateQuiz (E : Engine) (random : nat -> Draw) (fuel : nat)
  (s : State) (st : Store) : option Reaction :=
  let rejected := {| updates := []; effects := [Alert notice]; arrays := st |} in
  match activeData s ≫= quizBank with
  | None => Some rejected
  | Some bank =>
      n ← array_length bank st;
      if n =? 0 then Some rejected
      else
        '(filtered, st1) ← array_filter (matches (quizConfig s)) bank st;
        m ← array_length filtered st1;
        let questions := if m =? 0 then bank else filtered in
        '(st2, pos) ← pad_loop fuel random 0 (count (quizConfig s)) questions st1;
        st3 ← array_sort E random pos questions st2;
        sorted ← st3 !! questions;
        Some {| updates :=
                  start_session (number_questions (count (quizConfig s)) sorted);
                effects := [];
                arrays := st3 |}
  end.

(** ** Notions used in the statements *)

(** What the sorting algorithm of every engine guarantees, whatever the
    comparator answers: the array holds the same elements afterwards. *)
Definition rearranges (E : Engine) : Prop :=
  forall random pos l, Permutation l (E random pos l).

(** The questions the session is drawn from: the matching ones, or the
    whole bank when none matches. *)
Definition pool (cfg : QuizConfig) (bank : list QuizQuestion)
  : list QuizQuestion :=
  match List.filter (matches cfg) bank with
  | [] => bank
  | filtered => filtered
  end.

(** The array object [questions] refers to: a new one holding the matching
    questions, or the bank itself when none matches. *)
Definition pool_address (cfg : QuizConfig) (b : loc) (st : Store)
  (bank : list QuizQuestion) : loc :=
  match List.filter (matches cfg) bank with
  | [] => b
  | _ => length st
  end.

(** [!activeData?.quizBank || activeData.quizBank.length === 0]. *)
Definition bank_missing (s : State) (st : Store) : Prop :=
  activeData s = None \/
  (exists d, activeData s = Some d /\ quizBank d = None) \/
  (exists d b, activeData s = Some d /\ quizBank d = Some b /\ st !! b = Some []).

(** A request that ends in a network failure or in a response that is
    not [ok]. *)
Definition request_failed (o : fetch_outcome) : Prop :=
  match o with
  | Rejected _ | NotOk _ => True
  | Ok _ => False
  end.

(** The [detail] string the collaborator provided, if any. *)
Definition provided_detail (o : fetch_outcome) : option string :=
  match o with
  | NotOk (Parsed detail) => detail
  | _ => None
  end.

(** The specification's reading of the error surfaced: the collaborator's
    detail string, or the default message. *)
Definition surfaces_detail_or_default (o : fetch_outcome) (msg : string)
  : Prop :=
  provided_detail o = Some msg \/ msg = default_detail.

(** ** A sorting engine and sample data *)

(** An engine that sorts by insertion: each element is inserted into the
    part already sorted, from its front, going on past an element when
    the comparator's value [Math.random() - 0.5] is positive. *)
Definition positive_difference (r : Draw) : bool := (den r <? 2 * num r)%N.

Fixpoint insert_random (random : nat -> Draw) (pos : nat) (x : QuizQuestion)
  (sorted : list QuizQuestion) : list QuizQuestion * nat :=
  match sorted with
  | [] => ([x], pos)
  | y :: rest =>
      if positive_difference (random pos)
      then let '(l, pos') := insert_random random (S pos) x rest in (y :: l, pos')
      else (x :: y :: rest, S pos)
  end.

Fixpoint insertion_sort (random : nat -> Draw) (pos : nat)
  (l : list QuizQuestion) : list QuizQuestion * nat :=
  match l with
  | [] => ([], pos)
  | x :: l' =>
      let '(sorted, pos') := insertion_sort random pos l' in
      insert_random random pos' x sorted
  end.

Definition insertion_engine : Engine :=
  fun random pos l => (insertion_sort random pos l).1.

(** [Math.random()] returning 0.5 at every call. *)
Definition half : Draw := {| num := 1; den := 2; below_one := eq_refl |}.

Definition q_easy : QuizQuestion :=
  {| question := "Which word means 'apple'?"; options := ["apple"; "pear"];
     answer := 0; rationale := "apple"; difficulty := "easy" |}.

Definition q_hard : QuizQuestion :=
  {| question := "Which word means 'pear'?"; options := ["apple"; "pear"];
     answer := 1; rationale := "pear"; difficulty := "hard" |}.

Definition line_at (t : Q) : TranscriptLine :=
  {| time := t; text := "line"; kr := "줄" |}.

(** A bundle whose bank is the array at address 0 of the store. *)
Definition sample_bundle : StudyBundle :=
  {| videoId := "abc"; script := Some [line_at 0; line_at 5; line_at 10];
     vocabulary := Some []; quizBank := Some 0;
     thumbnail := thumbnail_of "abc" |}.

(** The setup view with the bundle loaded and [cfg] chosen. *)
Definition setup_state (cfg : QuizConfig) : State :=
  commit [SetActiveData (Some sample_bundle); SetView quiz_setup;
          SetQuizConfig cfg] initial_state.

(** The home view with a link typed in. *)
Definition typed_state : State :=
  commit [SetUrlInput "https://youtu.be/abc"] initial_state.

(** The study view on the sample bundle, the second line active. *)
Definition study_state : State :=
  commit [SetActiveData (Some sample_bundle); SetView study; SetPlaying true;
          SetCurrentScriptIdx 1] initial_state.

(** Choosing the first option, checking it and going on:
    [setSelectedOpt(0)], then [checkAnswer], then [nextQuestion], each in
    the render that follows the one before. *)
Definition answer_first (s : State) : option State :=
  let chosen := commit [SetSelectedOpt (Some 0%Z)] s in
  us ← checkAnswer chosen;
  let checked := commit us chosen in
  Some (commit (nextQuestion checked) checked).

(** The study view on a transcript whose first line starts at 5 s. *)
Definition late_start_state : State :=
  commit [SetActiveData (Some
            {| videoId := "abc"; script := Some [line_at 5; line_at 10];
               vocabulary := Some []; quizBank := None;
               thumbnail := thumbnail_of "abc" |});
          SetView study; SetPlaying true] initial_state.

(** ** The controls of the quiz view and a run through a session *)

(** An option of the quiz view:
    [onClick={() => !isAnswered && setSelectedOpt(idx)}]. *)
Definition clickOption (idx : nat) (s : State) : list update :=
  if isAnswered s then [] else [SetSelectedOpt (Some (Z.of_nat idx))].

(** One question of a run: the option [idx] is clicked, then the check
    button, then the button that goes on, each in the render that follows
    the one before. *)
Definition answer_with (idx : nat) (s : State) : option State :=
  let chosen := commit (clickOption idx s) s in
  us ← checkAnswer chosen;
  let checked := commit us chosen in
  Some (commit (nextQuestion checked) checked).

(** A run: one choice for each question that is left. *)
Fixpoint play (choices : list nat) (s : State) : option State :=
  match choices with
  | [] => Some s
  | idx :: rest => s' ← answer_with idx s; play rest s'
  end.

(** The number of choices that are the question's answer. *)
Fixpoint correct_answers (qs : list SessionQuestion) (choices : list nat) : Z :=
  match qs, choices with
  | q :: qs', idx :: rest =>
      ((if bool_decide (answer (base q) = Z.of_nat idx) then 1 else 0)
       + correct_answers qs' rest)%Z
  | _, _ => 0%Z
  end.

(** The surface forms saved, in the order of saving. *)
Definition saved_forms (s : State) : list string :=
  (fun w => word (saved w)) <$> savedWords (userStats s).

(** A transcript whose timestamps strictly increase. *)
Definition strictly_increasing (lines : list TranscriptLine) : Prop :=
  StronglySorted (fun a b => (time a < time b)%Q) lines.

(** A third question, of the hard kind too. *)
Definition q_other : QuizQuestion :=
  {| question := "Which word means 'plum'?"; options := ["plum"; "pear"];
     answer := 0; rationale := "plum"; difficulty := "hard" |}.

(** ** The component as a whole: which handler each view offers *)

(** What exists besides the component state: the arrays, and whether the
    request of [handleUrlSubmit] is still awaited. *)
Record World := {
  ui : State;
  store : list (list QuizQuestion);
  pending : bool
}.

Definition initial_world : World :=
  {| ui := initial_state; store := []; pending := false |}.

(** What the user, the player and the network can do.  [ClickLogo] is the
    logo of the header, [NavHome] and [NavDashboard] the tab bar, [ClickClose]
    the X of the setup and quiz views, [ClickHome] and [ClickDashboard] the
    buttons of the result view; [Settle o] is the end of the awaited request;
    [today] is the date read by [saveWord], [random] the values of
    [Math.random()] during [generateQuiz]. *)
Inductive event :=
| ClickLogo
| NavHome
| NavDashboard
| TypeUrl (text : string)
| ClickSubmit
| Settle (o : fetch_outcome)
| Progress (playedSeconds : Q)
| ClickTab (t : Tab)
| ClickLine (idx : nat)
| ClickStar (idx : nat) (today : string)
| ClickQuizStart
| ClickClose
| ChooseCount (num : nat)
| ChooseDifficulty (lv : string)
| ClickGenerate (random : nat -> Draw)
| ClickOption (idx : nat)
| ClickCheck
| ClickNext
| ClickDashboard
| ClickHome.

(** The next render after the setter calls [us]. *)
Definition rerender (w : World) (us : list update) : option World :=
  Some {| ui := commit us (ui w); store := store w; pending := pending w |}.

(** The next render after a handler that also writes to the arrays. *)
Definition rerender_with (w : World) (r : Reaction) (awaited : bool)
  : option World :=
  Some {| ui := commit (updates r) (ui w); store := arrays r;
          pending := awaited |}.

(** The reaction of the component to an event, by the view rendered
    ([{view === 'home' && <HomeView />}] and so on; the header on the home,
    dashboard and study views, the tab bar on the home and dashboard views).
    [None]: the view rendered does not offer the control, the control is
    disabled, or the handler throws.  The padding loop of [generateQuiz]
    gets [count + 1] units of fuel. *)
Definition react (E : Engine) (e : event) (w : World) : option World :=
  let s := ui w in
  match e, view s with
  | ClickLogo, (home | dashboard | study) => rerender w [SetView home]
  | NavHome, (home | dashboard) => rerender w [SetView home]
  | NavDashboard, (home | dashboard) => rerender w [SetView dashboard]
  | TypeUrl text, home =>
      if isLoading s then None else rerender w [SetUrlInput text]
  | ClickSubmit, home =>
      if submit_guard s || isLoading s then None
      else rerender_with w (handleUrlSubmit_begin s (store w)) true
  | Settle o, _ =>
      if pending w
      then rerender_with w (handleUrlSubmit_settle o (store w)) false
      else None
  | Progress playedSeconds, study =>
      us ← onProgress playedSeconds s; rerender w us
  | ClickTab t, study => rerender w [SetActiveTab t]
  | ClickLine idx, study =>
      match activeTab s with
      | tab_study =>
          d ← activeData s; lines ← script d; line ← lines !! idx;
          rerender w (handleSeek true (time line) idx).1
      | tab_words => None
      end
  | ClickStar idx today, study =>
      match activeTab s with
      | tab_words =>
          d ← activeData s; entries ← vocabulary d; v ← entries !! idx;
          rerender w (saveWord today v s)
      | tab_study => None
      end
  | ClickQuizStart, study => rerender w startQuizSetup
  | ClickClose, quiz_setup => rerender w [SetView study]
  | ChooseCount num, quiz_setup =>
      if bool_decide (num ∈ [3; 5; 10])
      then rerender w [SetQuizConfig
                         {| count := num;
                            cfg_difficulty := cfg_difficulty (quizConfig s) |}]
      else None
  | ChooseDifficulty lv, quiz_setup =>
      if bool_decide (lv ∈ ["easy"; "normal"; "hard"])
      then rerender w [SetQuizConfig
                         {| count := count (quizConfig s);
                            cfg_difficulty := lv |}]
      else None
  | ClickGenerate random, quiz_setup =>
      r ← generateQuiz E random (S (count (quizConfig s))) s (store w);
      rerender_with w r (pending w)
  | ClickClose, quiz =>
      _ ← quizSession s !! currentQIdx s; rerender w [SetView study]
  | ClickOption idx, quiz =>
      q ← quizSession s !! currentQIdx s;
      _ ← options (base q) !! idx;
      rerender w (clickOption idx s)
  | ClickCheck, quiz =>
      _ ← quizSession s !! currentQIdx s;
      if isAnswered s then None
      else match selectedOpt s with
           | None => None
           | Some _ => us ← checkAnswer s; rerender w us
           end
  | ClickNext, quiz =>
      _ ← quizSession s !! currentQIdx s;
      if isAnswered s then rerender w (nextQuestion s) else None
  | ClickDashboard, result => rerender w [SetView dashboard]
  | ClickHome, result => rerender w [SetView home]
  | _, _ => None
  end.

(** The worlds the component can be in. *)
Inductive reachable (E : Engine) : World -> Prop :=
| reachable_initial : reachable E initial_world
| reachable_step (e : event) (w w' : World) :
    reachable E w -> react E e w = Some w' -> reachable E w'.

(** A sequence of events, one after the other. *)
Fixpoint run (E : Engine) (events : list event) (w : World) : option World :=
  match events with
  | [] => Some w
  | e :: rest => w' ← react E e w; run E rest w'
  end.

(** What every reachable world satisfies. *)
Record well_formed (w : World) : Prop := {
  wf_count :
    count (quizConfig (ui w)) = 3 \/ count (quizConfig (ui w)) = 5 \/
    count (quizConfig (ui w)) = 10;
  wf_loading : isLoading (ui w) = pending w;
  wf_analyzing : pending w = true <-> view (ui w) = analyzing;
  wf_data :
    view (ui w) = study \/ view (ui w) = quiz_setup \/ view (ui w) = quiz ->
    is_Some (activeData (ui w));
  wf_bank :
    forall d b, activeData (ui w) = Some d -> quizBank d = Some b ->
                b < length (store w);
  wf_quiz :
    view (ui w) = quiz ->
    length (quizSession (ui w)) = count (quizConfig (ui w)) /\
    currentQIdx (ui w) < length (quizSession (ui w)) /\
    (0 <= score (ui w))%Z /\
    (score (ui w) <= Z.of_nat (currentQIdx (ui w))
                     + (if isAnswered (ui w) then 1 else 0))%Z;
  wf_result :
    view (ui w) = result ->
    length (quizSession (ui w)) = count (quizConfig (ui w)) /\
    (0 <= score (ui w) <= Z.of_nat (length (quizSession (ui w))))%Z;
  wf_stats :
    streak (userStats (ui w)) = 12%Z /\ goalXp (userStats (ui w)) = 100%Z /\
    xp (userStats (ui w)) = (todayXp (userStats (ui w)) + 1210)%Z /\
    (40 <= todayXp (userStats (ui w)))%Z /\
    NoDup (saved_forms (ui w));
  wf_selected :
    view (ui w) = quiz ->
    forall c, selectedOpt (ui w) = Some c -> exists idx, c = Z.of_nat idx;
  wf_feedback :
    view (ui w) = quiz -> isAnswered (ui w) = true ->
    exists q,
      quizSession (ui w) !! currentQIdx (ui w) = Some q /\
      is_Some (selectedOpt (ui w)) /\
      isCorrect (ui w)
      = bool_decide (Some (answer (base q)) = selectedOpt (ui w));
  wf_finished :
    view (ui w) = result ->
    S (currentQIdx (ui w)) = length (quizSession (ui w)) /\
    isAnswered (ui w) = true
}.

(** The look of an option of the quiz view:
    [if (isAnswered) {
       if (idx === question.answer) stateStyle = ...green...;
       else if (idx === selectedOpt) stateStyle = ...red...;
       else stateStyle = ...grey...;
     } else if (selectedOpt === idx) { stateStyle = ...blue...; }],
    white otherwise. *)
Inductive option_style := white | blue | green | red | grey.

Definition stateStyle (s : State) (question : SessionQuestion) (idx : nat)
  : option_style :=
  if isAnswered s then
    if bool_decide (Z.of_nat idx = answer (base question)) then green
    else if bool_decide (Some (Z.of_nat idx) = selectedOpt s) then red
    else grey
  else if bool_decide (selectedOpt s = Some (Z.of_nat idx)) then blue
  else white.

(** A visit: a link is submitted and answered with the one-question
    bundle, the quiz is set to three questions and generated, and the first
    question is answered with its first option. *)
Definition sample_visit : list event :=
  [TypeUrl "https://youtu.be/abc"; ClickSubmit;
   Settle (Ok (Parsed {| data_videoId := "abc";
                         data_script := Some [line_at 0; line_at 5];
                         data_vocabulary :=
                           Some [{| word := "apple"; type := "noun";
                                    meaning := "사과" |}];
                         data_quizBank := Some [q_easy] |}));
   Progress 2; ClickTab tab_words; ClickStar 0 "2026. 1. 1.";
   ClickQuizStart; ChooseCount 3; ClickGenerate (fun _ => half);
   ClickOption 0; ClickCheck].

(** The world after the visit (the initial world if the visit were
    refused). *)
Definition visited_world : World :=
  default initial_world (run insertion_engine sample_visit initial_world).

(** The visit carried on to the end of the quiz: the second question is
    answered with its second option, the third with its first. *)
Definition finished_visit : list event :=
  sample_visit ++ [ClickNext; ClickOption 1; ClickCheck; ClickNext;
                   ClickOption 0; ClickCheck; ClickNext].

Definition finished_world : World :=
  default initial_world (run insertion_engine finished_visit initial_world).

(** * Facts about the building blocks *)

Lemma insert_random_perm random pos x sorted :
  Permutation (x :: sorted) (insert_random random pos x sorted).1.
Proof.
  revert pos. induction sorted as [|y rest IH]; intros pos; simpl.
  - reflexivity.
  - destruct (positive_difference (random pos)); simpl.
    + specialize (IH (S pos)).
      destruct (insert_random random (S pos) x rest) as [l pos'] eqn:E.
      simpl in *. rewrite <- IH. apply perm_swap.
    + reflexivity.
Qed.

Lemma insertion_sort_perm random pos l :
  Permutation l (insertion_sort random pos l).1.
Proof.
  induction l as [|x l' IH]; simpl.
  - reflexivity.
  - destruct (insertion_sort random pos l') as [sorted pos'] eqn:E.
    simpl in IH. rewrite <- insert_random_perm. now constructor.
Qed.

Lemma insertion_engine_rearranges : rearranges insertion_engine.
Proof. intros random pos l. apply insertion_sort_perm. Qed.

(** [Math.floor(Math.random() * n)] is an index of an array of [n > 0]
    elements. *)
Lemma random_index_lt (r : Draw) (len : nat) :
  0 < len -> random_index r len < len.
Proof.
  intros Hlen. unfold random_index.
  pose proof (below_one r) as Hr. apply N.ltb_lt in Hr.
  assert (num r * N.of_nat len / den r < N.of_nat len)%N as H.
  { apply N.Div0.div_lt_upper_bound. nia. }
  lia.
Qed.

(** [findIndex]: when no element satisfies the predicate the result is
    [-1]; otherwise it is the index of the first one that does. *)
Lemma findIndex_from_none {A : Type} (p : A -> bool) (l : list A) (i : Z) :
  Forall (fun x => p x = false) l -> findIndex_from p l i = (-1)%Z.
Proof.
  intros H. revert i. induction H as [|x l Hx _ IH]; intros i; simpl.
  - reflexivity.
  - rewrite Hx. apply IH.
Qed.

Lemma findIndex_from_first {A : Type} (p : A -> bool) (l : list A) (i : Z)
  (n : nat) (x : A) :
  l !! n = Some x -> p x = true ->
  Forall (fun y => p y = false) (take n l) ->
  findIndex_from p l i = (i + Z.of_nat n)%Z.
Proof.
  revert i n. induction l as [|y l IH]; intros i n Hn Hx Hbefore.
  - discriminate.
  - destruct n as [|n]; simpl in *.
    + injection Hn as ->. rewrite Hx. lia.
    + inversion Hbefore as [|? ? Hy Hrest]; subst.
      rewrite Hy. rewrite (IH (i + 1)%Z n); auto. lia.
Qed.

Lemma findIndex_cases {A : Type} (p : A -> bool) (l : list A) :
  (findIndex p l = (-1)%Z /\ Forall (fun x => p x = false) l) \/
  (exists n x, findIndex p l = Z.of_nat n /\ l !! n = Some x /\
               p x = true /\ Forall (fun y => p y = false) (take n l)).
Proof.
  unfold findIndex.
  assert (forall i, (findIndex_from p l i = -1 /\
                     Forall (fun x => p x = false) l)%Z \/
            (exists n x, findIndex_from p l i = (i + Z.of_nat n)%Z /\
               l !! n = Some x /\ p x = true /\
               Forall (fun y => p y = false) (take n l))) as H.
  { induction l as [|y l IH]; intros i; simpl.
    - left. split; [reflexivity | constructor].
    - destruct (p y) eqn:Hy.
      + right. exists 0, y. simpl. repeat split; auto. lia.
      + destruct (IH (i + 1)%Z) as [[H1 H2] | (n & x & H1 & H2 & H3 & H4)].
        * left. split; [assumption | now constructor].
        * right. exists (S n), x. simpl. repeat split; auto.
          rewrite H1. lia. }
  destruct (H 0%Z) as [? | (n & x & H1 & ?)]; [now left | right].
  exists n, x. rewrite H1. split; [lia | assumption].
Qed.

Lemma later_than_true (t : Q) (line : TranscriptLine) :
  later_than t line = true <-> (t < time line)%Q.
Proof.
  unfold later_than. rewrite negb_true_iff.
  split.
  - intros H. apply Qnot_le_lt. intros Hle.
    apply Qle_bool_iff in Hle. congruence.
  - intros H. destruct (Qle_bool (time line) t) eqn:E; [|reflexivity].
    apply Qle_bool_iff in E. exfalso. apply (Qlt_not_le _ _ H E).
Qed.

Lemma later_than_false (t : Q) (line : TranscriptLine) :
  later_than t line = false <-> (time line <= t)%Q.
Proof.
  unfold later_than. rewrite negb_false_iff. apply Qle_bool_iff.
Qed.

(** The synchronizer, by the outcome of its scan. *)
Lemma sync_not_found (lines : list TranscriptLine) (current : nat) (t : Q) :
  Forall (fun line => (time line <= t)%Q) lines ->
  sync lines current t = [].
Proof.
  intros H. unfold sync, findIndex.
  rewrite findIndex_from_none; [reflexivity|].
  eapply Forall_impl; [exact H|]. intros line Hl. now apply later_than_false.
Qed.

Lemma sync_found (lines : list TranscriptLine) (current : nat) (t : Q)
  (n : nat) (x : TranscriptLine) :
  lines !! n = Some x -> (t < time x)%Q ->
  Forall (fun line => (time line <= t)%Q) (take n lines) ->
  sync lines current t =
    if bool_decide (n = S current) then [] else [SetCurrentScriptIdx (pred n)].
Proof.
  intros Hn Hx Hbefore. unfold sync, findIndex.
  rewrite (findIndex_from_first _ _ _ n x Hn).
  - replace (negb (0 + Z.of_nat n =? -1)%Z) with true
      by (symmetry; apply negb_true_iff, Z.eqb_neq; lia).
    simpl andb. case_bool_decide as Hc.
    + replace (0 + Z.of_nat n - 1 =? Z.of_nat current)%Z with true
        by (symmetry; apply Z.eqb_eq; lia).
      reflexivity.
    + replace (0 + Z.of_nat n - 1 =? Z.of_nat current)%Z with false
        by (symmetry; apply Z.eqb_neq; lia).
      simpl. do 2 f_equal. lia.
  - now apply later_than_true.
  - eapply Forall_impl; [exact Hbefore|]. intros l Hl.
    now apply later_than_false.
Qed.

(** Whatever the scan finds, either a line later than [t] exists, and
    the first such line has index [n], or every line is at or before [t]. *)
Lemma scan_cases (lines : list TranscriptLine) (t : Q) :
  Forall (fun line => (time line <= t)%Q) lines \/
  (exists n x, lines !! n = Some x /\ (t < time x)%Q /\
               Forall (fun line => (time line <= t)%Q) (take n lines)).
Proof.
  destruct (findIndex_cases (later_than t) lines)
    as [[_ H] | (n & x & _ & Hn & Hx & H)].
  - left. eapply Forall_impl; [exact H|]. intros l Hl.
    now apply later_than_false.
  - right. exists n, x. repeat split; auto.
    + now apply later_than_true.
    + eapply Forall_impl; [exact H|]. intros l Hl.
      now apply later_than_false.
Qed.

(** The store after [push] and inside the padding loop. *)
Lemma pad_loop_spec (fuel : nat) (random : nat -> Draw) (cnt : nat) (a : loc) :
  forall (pos : nat) (st : Store) (arr : list QuizQuestion),
    st !! a = Some arr -> arr <> [] -> cnt - length arr < fuel ->
    exists extra,
      pad_loop fuel random pos cnt a st
        = Some (<[a := arr ++ extra]> st, pos + (cnt - length arr)) /\
      length extra = cnt - length arr /\
      Forall (fun q => q ∈ arr) extra.
Proof.
  induction fuel as [|fuel IH]; intros pos st arr Ha Hne Hfuel; [lia|].
  simpl. unfold array_length. rewrite Ha. simpl.
  destruct (length arr <? cnt) eqn:Hlt.
  - apply Nat.ltb_lt in Hlt.
    assert (0 < length arr) as Hpos by (destruct arr; simpl; [congruence|lia]).
    pose proof (random_index_lt (random pos) _ Hpos) as Hidx.
    destruct (lookup_lt_is_Some_2 _ _ Hidx) as [q Hq].
    unfold array_get, array_push. rewrite Ha. simpl. rewrite Hq. simpl.
    assert (a < length st) as Hbound by (eapply lookup_lt_Some; eauto).
    destruct (IH (S pos) (<[a := arr ++ [q]]> st) (arr ++ [q]))
      as (extra & Hrun & Hlen & Hin).
    + now apply list_lookup_insert_eq.
    + destruct arr; discriminate.
    + rewrite length_app. simpl. lia.
    + exists (q :: extra). rewrite Hrun. split; [|split].
      * rewrite list_insert_insert_eq, <- app_assoc. simpl.
        do 2 f_equal. rewrite length_app. simpl. lia.
      * simpl. rewrite Hlen, length_app. simpl. lia.
      * constructor.
        -- eapply list_elem_of_lookup_2; eauto.
        -- eapply Forall_impl; [exact Hin|]. intros x Hx.
           apply elem_of_app in Hx as [Hx | Hx]; [assumption|].
           apply list_elem_of_singleton in Hx. subst x.
           eapply list_elem_of_lookup_2; eauto.
  - apply Nat.ltb_ge in Hlt. exists []. split; [|split].
    + rewrite app_nil_r, list_insert_id by assumption.
      do 2 f_equal. lia.
    + simpl. lia.
    + constructor.
Qed.

(** The part of [generateQuiz] after the choice of [questions]. *)
Lemma shuffle_spec (E : Engine) (random : nat -> Draw) (fuel cnt : nat)
  (a : loc) (st : Store) (arr : list QuizQuestion) :
  rearranges E -> st !! a = Some arr -> arr <> [] -> cnt < fuel ->
  exists extra sorted,
    Forall (fun q => q ∈ arr) extra /\
    length extra = cnt - length arr /\
    Permutation (arr ++ extra) sorted /\
    ('(st2, pos) ← pad_loop fuel random 0 cnt a st;
     st3 ← array_sort E random pos a st2;
     sorted' ← st3 !! a;
     Some {| updates := start_session (number_questions cnt sorted');
             effects := []; arrays := st3 |})
    = Some {| updates := start_session (number_questions cnt sorted);
              effects := []; arrays := <[a := sorted]> st |}.
Proof.
  intros HE Ha Hne Hfuel.
  destruct (pad_loop_spec fuel random cnt a 0 st arr Ha Hne)
    as (extra & Hrun & Hlen & Hin); [lia|].
  assert (a < length st) as Hbound by (eapply lookup_lt_Some; eauto).
  exists extra, (E random (0 + (cnt - length arr)) (arr ++ extra)).
  split; [assumption|]. split; [assumption|].
  split; [apply HE|].
  rewrite Hrun. simpl. unfold array_sort.
  rewrite list_lookup_insert_eq by assumption. simpl.
  rewrite list_insert_insert_eq.
  rewrite list_lookup_insert_eq by assumption. reflexivity.
Qed.

(** [generateQuiz] on a bank that is not empty: what it returns. *)
Lemma generateQuiz_spec (E : Engine) (random : nat -> Draw) (fuel : nat)
  (s : State) (st : Store) (d : StudyBundle) (b : loc)
  (bank : list QuizQuestion) :
  rearranges E ->
  activeData s = Some d -> quizBank d = Some b -> st !! b = Some bank ->
  bank <> [] -> count (quizConfig s) < fuel ->
  exists extra sorted,
    Forall (fun q => q ∈ pool (quizConfig s) bank) extra /\
    length extra = count (quizConfig s) - length (pool (quizConfig s) bank) /\
    Permutation (pool (quizConfig s) bank ++ extra) sorted /\
    generateQuiz E random fuel s st
    = Some {| updates :=
                start_session (number_questions (count (quizConfig s)) sorted);
              effects := [];
              arrays := <[pool_address (quizConfig s) b st bank := sorted]>
                          (st ++ [List.filter (matches (quizConfig s)) bank]) |}.
Proof.
  intros HE Hd Hb Hbank Hne Hfuel.
  assert (activeData s ≫= quizBank = Some b) as Href
    by (rewrite Hd; exact Hb).
  assert ((length bank =? 0) = false) as Hlen
    by (destruct bank; [congruence | reflexivity]).
  assert (b < length st) as Hbound by (eapply lookup_lt_Some; eauto).
  unfold generateQuiz, pool, pool_address. rewrite Href.
  unfold array_length, array_filter. rewrite Hbank.
  cbn [fmap option_fmap option_map mbind option_bind]. rewrite Hlen.
  remember (List.filter (matches (quizConfig s)) bank) as filtered eqn:Hf.
  rewrite (list_lookup_middle st [] filtered (length st) eq_refl).
  cbn [fmap option_fmap option_map mbind option_bind].
  destruct filtered as [|f0 filtered']; simpl length; simpl Nat.eqb;
    cbv iota.
  - apply shuffle_spec; [assumption| |assumption|assumption].
    rewrite lookup_app_l by assumption. assumption.
  - apply shuffle_spec; [assumption| |congruence|assumption].
    apply (list_lookup_middle st [] _ (length st) eq_refl).
Qed.

(** The session list: its length, its identifiers and its questions. *)
Lemma number_questions_base (cnt : nat) (arr : list QuizQuestion) :
  base <$> number_questions cnt arr = take cnt arr.
Proof.
  unfold number_questions. rewrite fmap_imap.
  rewrite (imap_ext _ (fun _ q => q)) by reflexivity.
  generalize (take cnt arr). intros l.
  change (imap (const (fun q : QuizQuestion => q)) l = l).
  rewrite imap_const. apply list_fmap_id.
Qed.

Lemma number_questions_ids (cnt : nat) (arr : list QuizQuestion) :
  id <$> number_questions cnt arr = seq 0 (length (take cnt arr)).
Proof.
  unfold number_questions. rewrite fmap_imap.
  rewrite (imap_ext _ (fun j _ => j)) by reflexivity.
  rewrite (imap_seq_0 _ (fun j => j)). apply list_fmap_id.
Qed.

Lemma number_questions_length (cnt : nat) (arr : list QuizQuestion) :
  length (number_questions cnt arr) = length (take cnt arr).
Proof. unfold number_questions. apply length_imap. Qed.

Lemma pool_subseteq (cfg : QuizConfig) (bank : list QuizQuestion) :
  pool cfg bank ⊆ bank.
Proof.
  unfold pool. destruct (List.filter (matches cfg) bank) as [|f0 fs] eqn:Hf;
    [done|].
  rewrite <- Hf. intros q Hq. apply list_elem_of_In, filter_In in Hq.
  apply list_elem_of_In. tauto.
Qed.

Lemma pool_matching (cfg : QuizConfig) (bank : list QuizQuestion) :
  List.filter (matches cfg) bank <> [] ->
  pool cfg bank = List.filter (matches cfg) bank.
Proof.
  unfold pool. destruct (List.filter (matches cfg) bank); [congruence|done].
Qed.

Lemma pool_nonempty (cfg : QuizConfig) (bank : list QuizQuestion) :
  bank <> [] -> pool cfg bank <> [].
Proof.
  unfold pool. destruct (List.filter (matches cfg) bank); [done|congruence].
Qed.

(** The state after the setter calls of [start_session]. *)
Lemma commit_start_session (l : list SessionQuestion) (s : State) :
  quizSession (commit (start_session l) s) = l /\
  view (commit (start_session l) s) = quiz /\
  currentQIdx (commit (start_session l) s) = 0 /\
  score (commit (start_session l) s) = 0%Z /\
  selectedOpt (commit (start_session l) s) = None /\
  isAnswered (commit (start_session l) s) = false /\
  userStats (commit (start_session l) s) = userStats s /\
  activeData (commit (start_session l) s) = activeData s.
Proof. repeat split. Qed.

(** * The quiz session builder *)

(** C1: for a bank of at least one question, a requested count among 3, 5
    and 10 and any requested difficulty, [generateQuiz] returns, and the
    session it stores is a list of exactly [count] questions of the bank
    whose identifiers are 0, 1, ..., [count - 1] in this order; the view
    becomes [quiz].  The size of the bank plays no role. *)
Theorem generateQuiz_session_length (E : Engine) (random : nat -> Draw)
  (fuel : nat) (s : State) (st : Store) (d : StudyBundle) (b : loc)
  (bank : list QuizQuestion) :
  rearranges E ->
  activeData s = Some d -> quizBank d = Some b -> st !! b = Some bank ->
  1 <= length bank ->
  count (quizConfig s) = 3 \/ count (quizConfig s) = 5 \/
    count (quizConfig s) = 10 ->
  count (quizConfig s) < fuel ->
  exists r,
    generateQuiz E random fuel s st = Some r /\
    length (quizSession (commit (updates r) s)) = count (quizConfig s) /\
    id <$> quizSession (commit (updates r) s) = seq 0 (count (quizConfig s)) /\
    Forall (fun sq => base sq ∈ bank) (quizSession (commit (updates r) s)) /\
    view (commit (updates r) s) = quiz.
Proof.
  intros HE Hd Hb Hbank Hn _ Hfuel.
  assert (bank <> []) as Hne by (destruct bank; simpl in Hn; [lia|congruence]).
  destruct (generateQuiz_spec E random fuel s st d b bank HE Hd Hb Hbank Hne
              Hfuel)
    as (extra & sorted & Hin & Hlen & Hperm & Hrun).
  eexists. split; [exact Hrun|]. cbn [updates].
  destruct (commit_start_session
              (number_questions (count (quizConfig s)) sorted) s)
    as (-> & -> & _).
  assert (count (quizConfig s) <= length sorted) as Hk.
  { rewrite <- (Permutation_length Hperm), length_app, Hlen. lia. }
  rewrite number_questions_ids, number_questions_length.
  rewrite length_take_le by assumption.
  repeat split.
  assert (Forall (fun q => q ∈ bank)
            (base <$> number_questions (count (quizConfig s)) sorted)) as H;
    [|rewrite Forall_fmap in H; exact H].
  rewrite number_questions_base. apply Forall_forall. intros q Hq.
  apply subseteq_take in Hq. rewrite <- Hperm in Hq.
  apply elem_of_app in Hq as [Hq | Hq].
  - now apply pool_subseteq in Hq.
  - rewrite Forall_forall in Hin. apply Hin in Hq.
    now apply pool_subseteq in Hq.
Qed.

Lemma generateQuiz_session_length_witness :
  exists r,
    generateQuiz insertion_engine (fun _ => half) 4
      (setup_state {| count := 3; cfg_difficulty := "normal" |}) [[q_easy]]
    = Some r /\
    length (quizSession (commit (updates r)
      (setup_state {| count := 3; cfg_difficulty := "normal" |}))) = 3 /\
    id <$> quizSession (commit (updates r)
      (setup_state {| count := 3; cfg_difficulty := "normal" |})) = seq 0 3 /\
    Forall (fun sq => base sq ∈ [q_easy]) (quizSession (commit (updates r)
      (setup_state {| count := 3; cfg_difficulty := "normal" |}))) /\
    view (commit (updates r)
      (setup_state {| count := 3; cfg_difficulty := "normal" |})) = quiz.
Proof.
  apply (generateQuiz_session_length insertion_engine (fun _ => half) 4
           (setup_state {| count := 3; cfg_difficulty := "normal" |})
           [[q_easy]] sample_bundle 0 [q_easy]).
  - exact insertion_engine_rearranges.
  - reflexivity.
  - reflexivity.
  - reflexivity.
  - simpl. lia.
  - left. reflexivity.
  - simpl. lia.
Defined.

(** When some question of the bank matches the requested difficulty, every
    question of the session matches it, also when fewer match than were
    requested: the padding repeats matching questions. *)
Lemma generateQuiz_only_matching (E : Engine) (random : nat -> Draw)
  (fuel : nat) (s : State) (st : Store) (d : StudyBundle) (b : loc)
  (bank : list QuizQuestion) :
  rearranges E ->
  activeData s = Some d -> quizBank d = Some b -> st !! b = Some bank ->
  List.filter (matches (quizConfig s)) bank <> [] ->
  count (quizConfig s) < fuel ->
  exists r,
    generateQuiz E random fuel s st = Some r /\
    Forall (fun sq => difficulty (base sq) = cfg_difficulty (quizConfig s))
      (quizSession (commit (updates r) s)) /\
    arrays r !! b = Some bank.
Proof.
  intros HE Hd Hb Hbank Hmatch Hfuel.
  assert (bank <> []) as Hne by (intros ->; apply Hmatch; reflexivity).
  destruct (generateQuiz_spec E random fuel s st d b bank HE Hd Hb Hbank Hne
              Hfuel)
    as (extra & sorted & Hin & Hlen & Hperm & Hrun).
  assert (b < length st) as Hbound by (eapply lookup_lt_Some; eauto).
  eexists. split; [exact Hrun|]. cbn [updates arrays].
  destruct (commit_start_session
              (number_questions (count (quizConfig s)) sorted) s) as (-> & _).
  rewrite (pool_matching _ _ Hmatch) in Hin, Hperm.
  assert (forall q, q ∈ List.filter (matches (quizConfig s)) bank ->
                    difficulty q = cfg_difficulty (quizConfig s)) as Hdiff.
  { intros q Hq. apply list_elem_of_In, filter_In in Hq as [_ Hq].
    unfold matches in Hq. now apply bool_decide_eq_true in Hq. }
  split.
  - assert (Forall (fun q => difficulty q = cfg_difficulty (quizConfig s))
              (base <$> number_questions (count (quizConfig s)) sorted)) as H;
      [|rewrite Forall_fmap in H; exact H].
    rewrite number_questions_base. apply Forall_forall. intros q Hq.
    apply subseteq_take in Hq. rewrite <- Hperm in Hq.
    apply elem_of_app in Hq as [Hq | Hq]; [now apply Hdiff|].
    rewrite Forall_forall in Hin. now apply Hdiff, Hin.
  - unfold pool_address.
    destruct (List.filter (matches (quizConfig s)) bank) as [|f0 fs];
      [congruence|].
    rewrite list_lookup_insert_ne by lia.
    rewrite lookup_app_l by assumption. assumption.
Qed.

(** C8: when the bank holds a question of the requested difficulty,
    [generateQuiz] returns a session of [count] questions, each of them of
    the requested difficulty.  So a question of another difficulty appears
    in the session only if fewer questions of the bank have the requested
    difficulty than were requested; in fact it appears in neither case,
    the padding repeats questions of the requested difficulty. *)
Theorem generateQuiz_difficulty_preference (E : Engine)
  (random : nat -> Draw) (fuel : nat) (s : State) (st : Store)
  (d : StudyBundle) (b : loc) (bank : list QuizQuestion) :
  rearranges E ->
  activeData s = Some d -> quizBank d = Some b -> st !! b = Some bank ->
  (exists q, q ∈ bank /\ difficulty q = cfg_difficulty (quizConfig s)) ->
  count (quizConfig s) < fuel ->
  exists r,
    generateQuiz E random fuel s st = Some r /\
    length (quizSession (commit (updates r) s)) = count (quizConfig s) /\
    Forall (fun sq => difficulty (base sq) = cfg_difficulty (quizConfig s))
      (quizSession (commit (updates r) s)) /\
    (forall sq,
       sq ∈ quizSession (commit (updates r) s) ->
       difficulty (base sq) <> cfg_difficulty (quizConfig s) ->
       length (List.filter
                 (fun q => bool_decide
                             (difficulty q = cfg_difficulty (quizConfig s)))
                 bank)
       < count (quizConfig s)).
Proof.
  intros HE Hd Hb Hbank (q & Hq & Hdq) Hfuel.
  assert (List.filter (matches (quizConfig s)) bank <> []) as Hmatch.
  { intros Hempty.
    assert (In q (List.filter (matches (quizConfig s)) bank)) as Hin.
    { apply filter_In. split; [now apply list_elem_of_In|].
      unfold matches. now apply bool_decide_eq_true. }
    rewrite Hempty in Hin. destruct Hin. }
  assert (bank <> []) as Hne by (intros ->; apply Hmatch; reflexivity).
  destruct (generateQuiz_only_matching E random fuel s st d b bank
              HE Hd Hb Hbank Hmatch Hfuel) as (r & Hrun & Hall & _).
  destruct (generateQuiz_spec E random fuel s st d b bank HE Hd Hb Hbank Hne
              Hfuel)
    as (extra & sorted & _ & Hlen & Hperm & Hrun').
  exists r. split; [assumption|]. split; [|split].
  - rewrite Hrun' in Hrun. injection Hrun as <-. cbn [updates].
    destruct (commit_start_session
                (number_questions (count (quizConfig s)) sorted) s) as (-> & _).
    rewrite number_questions_length. apply length_take_le.
    rewrite <- (Permutation_length Hperm), length_app, Hlen. lia.
  - assumption.
  - intros sq Hsq Hother. rewrite Forall_forall in Hall.
    now apply Hall in Hsq.
Qed.

Lemma generateQuiz_difficulty_preference_witness :
  exists r,
    generateQuiz insertion_engine (fun _ => half) 4
      (setup_state {| count := 3; cfg_difficulty := "hard" |})
      [[q_easy; q_hard; q_other; q_hard]] = Some r /\
    length (quizSession (commit (updates r)
      (setup_state {| count := 3; cfg_difficulty := "hard" |}))) = 3 /\
    Forall (fun sq => difficulty (base sq) = "hard")
      (quizSession (commit (updates r)
         (setup_state {| count := 3; cfg_difficulty := "hard" |}))) /\
    (forall sq,
       sq ∈ quizSession (commit (updates r)
              (setup_state {| count := 3; cfg_difficulty := "hard" |})) ->
       difficulty (base sq) <> "hard" ->
       length (List.filter (fun q => bool_decide (difficulty q = "hard"))
                 [q_easy; q_hard; q_other; q_hard]) < 3).
Proof.
  apply (generateQuiz_difficulty_preference insertion_engine (fun _ => half) 4
           (setup_state {| count := 3; cfg_difficulty := "hard" |})
           [[q_easy; q_hard; q_other; q_hard]] sample_bundle 0
           [q_easy; q_hard; q_other; q_hard]).
  - exact insertion_engine_rearranges.
  - reflexivity.
  - reflexivity.
  - reflexivity.
  - exists q_hard. split; [|reflexivity]. apply list_elem_of_In. simpl. tauto.
  - simpl. lia.
Defined.

(** When no question matches, [questions] is the bank array itself: the
    padding and the sort are written to it. *)
Lemma generateQuiz_fallback_writes_bank (E : Engine) (random : nat -> Draw)
  (fuel : nat) (s : State) (st : Store) (d : StudyBundle) (b : loc)
  (bank : list QuizQuestion) :
  rearranges E ->
  activeData s = Some d -> quizBank d = Some b -> st !! b = Some bank ->
  bank <> [] -> List.filter (matches (quizConfig s)) bank = [] ->
  count (quizConfig s) < fuel ->
  exists r arr,
    generateQuiz E random fuel s st = Some r /\
    arrays r !! b = Some arr /\
    length arr = Nat.max (length bank) (count (quizConfig s)) /\
    (forall q, q ∈ arr <-> q ∈ bank).
Proof.
  intros HE Hd Hb Hbank Hne Hnone Hfuel.
  destruct (generateQuiz_spec E random fuel s st d b bank HE Hd Hb Hbank Hne
              Hfuel)
    as (extra & sorted & Hin & Hlen & Hperm & Hrun).
  assert (b < length st) as Hbound by (eapply lookup_lt_Some; eauto).
  unfold pool in Hin, Hlen, Hperm. unfold pool_address in Hrun.
  rewrite Hnone in *.
  eexists. exists sorted. split; [exact Hrun|]. cbn [arrays].
  split; [|split].
  - apply list_lookup_insert_eq. rewrite length_app. simpl. lia.
  - rewrite <- (Permutation_length Hperm), length_app, Hlen. lia.
  - intros q. rewrite <- Hperm, elem_of_app. split; [|tauto].
    intros [Hq | Hq]; [assumption|].
    rewrite Forall_forall in Hin. now apply Hin.
Qed.

(** C7, at a bank of one easy question with [normal] difficulty and three
    questions requested (insertion sort, every draw 0.5): after
    [generateQuiz] the bank array of the bundle, at address 0, holds three
    questions instead of one. *)
Theorem generateQuiz_fallback_mutates_bank :
  arrays <$> generateQuiz insertion_engine (fun _ => half) 4
               (setup_state {| count := 3; cfg_difficulty := "normal" |})
               [[q_easy]]
  = Some [[q_easy; q_easy; q_easy]; []].
Proof. reflexivity. Qed.

(** C4: when the bank is absent or empty, [generateQuiz] calls no setter
    and writes to no array; its only effect is the alert that no quiz data
    exists.  The state, and so the view, stays as it was: a user on the
    setup view stays there and does not reach the quiz view. *)
Theorem generateQuiz_empty_bank (E : Engine) (random : nat -> Draw)
  (fuel : nat) (s : State) (st : Store) :
  bank_missing s st ->
  exists r,
    generateQuiz E random fuel s st = Some r /\
    updates r = [] /\ effects r = [Alert notice] /\ arrays r = st /\
    commit (updates r) s = s /\
    (view s = quiz_setup ->
     view (commit (updates r) s) = quiz_setup /\
     view (commit (updates r) s) <> quiz).
Proof.
  intros Hmissing.
  exists {| updates := []; effects := [Alert notice]; arrays := st |}.
  split.
  - unfold generateQuiz.
    destruct Hmissing as [Hd | [(d & Hd & Hb) | (d & b & Hd & Hb & Hbank)]].
    + rewrite Hd. reflexivity.
    + replace (activeData s ≫= quizBank) with (@None nat)
        by (rewrite Hd; symmetry; exact Hb).
      reflexivity.
    + replace (activeData s ≫= quizBank) with (Some b)
        by (rewrite Hd; symmetry; exact Hb).
      unfold array_length. rewrite Hbank. reflexivity.
  - cbn [updates effects arrays]. repeat split; try reflexivity.
    + assumption.
    + change (view s <> quiz). congruence.
Qed.

Lemma generateQuiz_empty_bank_witness :
  exists r,
    generateQuiz insertion_engine (fun _ => half) 0
      (setup_state {| count := 5; cfg_difficulty := "normal" |}) [[]] = Some r /\
    updates r = [] /\ effects r = [Alert notice] /\ arrays r = [[]] /\
    commit (updates r) (setup_state {| count := 5; cfg_difficulty := "normal" |})
      = setup_state {| count := 5; cfg_difficulty := "normal" |} /\
    (view (setup_state {| count := 5; cfg_difficulty := "normal" |}) = quiz_setup ->
     view (commit (updates r)
             (setup_state {| count := 5; cfg_difficulty := "normal" |}))
       = quiz_setup /\
     view (commit (updates r)
             (setup_state {| count := 5; cfg_difficulty := "normal" |})) <> quiz).
Proof.
  apply (generateQuiz_empty_bank insertion_engine (fun _ => half) 0
           (setup_state {| count := 5; cfg_difficulty := "normal" |}) [[]]).
  right. right. exists sample_bundle, 0. repeat split.
Defined.

(** * The progress accumulator *)

(** On the last question [nextQuestion] is [finishQuiz]. *)
Lemma nextQuestion_last (s : State) :
  length (quizSession s) <= S (currentQIdx s) ->
  nextQuestion s = finishQuiz s.
Proof.
  intros H. unfold nextQuestion.
  replace (Z.of_nat (currentQIdx s) <? Z.of_nat (length (quizSession s)) - 1)%Z
    with false by (symmetry; apply Z.ltb_ge; lia).
  reflexivity.
Qed.

(** C3: completing a quiz with score [score s] adds [score s * 10 + 20] to
    the cumulative experience and to today's experience, and leaves the
    streak (and the goal and the saved words) as they were; the amount does
    not depend on the quiz configuration.  Going on from the last question
    is this completion. *)
Theorem finishQuiz_reward (s : State) :
  let s' := commit (finishQuiz s) s in
  xp (userStats s') = (xp (userStats s) + (score s * 10 + 20))%Z /\
  todayXp (userStats s') = (todayXp (userStats s) + (score s * 10 + 20))%Z /\
  streak (userStats s') = streak (userStats s) /\
  goalXp (userStats s') = goalXp (userStats s) /\
  savedWords (userStats s') = savedWords (userStats s) /\
  view s' = result /\
  (forall cfg,
     userStats (commit (finishQuiz (apply_update (SetQuizConfig cfg) s))
                  (apply_update (SetQuizConfig cfg) s)) = userStats s') /\
  (length (quizSession s) <= S (currentQIdx s) ->
   nextQuestion s = finishQuiz s).
Proof. repeat split. apply nextQuestion_last. Qed.

(** A score of 3 is worth 50 points. *)
Example finishQuiz_score_3 :
  gainedXp (commit [SetScore (fun _ => 3%Z)] initial_state) = 50%Z.
Proof. reflexivity. Qed.

(** A whole run: a link is submitted and answered with a transcript of two
    lines and a bank of one easy question; a quiz of three easy questions
    is generated and holds three copies of that question; all three are
    answered correctly: the score is 3 and 50 points are awarded. *)
Example run_of_one_question_bank :
  let data := {| data_videoId := "abc";
                 data_script := Some [line_at 0; line_at 5];
                 data_vocabulary := Some [];
                 data_quizBank := Some [q_easy] |} in
  let submitted := handleUrlSubmit (Ok (Parsed data)) typed_state [] in
  let studying := commit (updates submitted) typed_state in
  let setup :=
    commit (startQuizSetup
            ++ [SetQuizConfig {| count := 3; cfg_difficulty := "easy" |}])
      studying in
  view studying = study /\ playing studying = true /\
  exists (generated : Reaction) (finished : State),
    generateQuiz insertion_engine (fun _ => half) 4 setup (arrays submitted)
      = Some generated /\
    base <$> quizSession (commit (updates generated) setup)
      = [q_easy; q_easy; q_easy] /\
    (s1 ← answer_first (commit (updates generated) setup);
     s2 ← answer_first s1; answer_first s2) = Some finished /\
    view finished = result /\ score finished = 3%Z /\
    xp (userStats finished) = 1300%Z /\ todayXp (userStats finished) = 90%Z.
Proof.
  repeat split. eexists. eexists. repeat split.
Qed.

(** The scan of [saveWord]: the entry it finds has the surface form of
    [wordObj]; when it finds none, no saved entry has it. *)
Lemma find_same_word (wordObj : VocabularyEntry) (l : list SavedWord) :
  match List.find (same_word wordObj) l with
  | Some w => w ∈ l /\ word (saved w) = word wordObj
  | None => Forall (fun w => word (saved w) <> word wordObj) l
  end.
Proof.
  induction l as [|w l IH]; simpl.
  - constructor.
  - unfold same_word at 1. case_bool_decide as Hw.
    + split; [left | assumption].
    + destruct (List.find (same_word wordObj) l) as [w'|].
      * destruct IH. split; [now right | assumption].
      * now constructor.
Qed.

Lemma saveWord_present (today : string) (wordObj : VocabularyEntry)
  (s : State) :
  (exists w, w ∈ savedWords (userStats s) /\ word (saved w) = word wordObj) ->
  saveWord today wordObj s = [].
Proof.
  intros (w & Hin & Hsame). unfold saveWord.
  pose proof (find_same_word wordObj (savedWords (userStats s))) as Hfind.
  destruct (List.find (same_word wordObj) (savedWords (userStats s)));
    [reflexivity|].
  rewrite Forall_forall in Hfind. exfalso. exact (Hfind w Hin Hsame).
Qed.

Lemma saveWord_absent (today : string) (wordObj : VocabularyEntry)
  (s : State) :
  (forall w, w ∈ savedWords (userStats s) -> word (saved w) <> word wordObj) ->
  saveWord today wordObj s
  = [SetUserStats (append_word {| saved := wordObj; date := today |})].
Proof.
  intros Hnone. unfold saveWord.
  pose proof (find_same_word wordObj (savedWords (userStats s))) as Hfind.
  destruct (List.find (same_word wordObj) (savedWords (userStats s))) as [w|];
    [|reflexivity].
  destruct Hfind as [Hin Hsame]. exfalso. exact (Hnone w Hin Hsame).
Qed.

(** After [saveWord], an entry of the surface form is saved. *)
Lemma saveWord_saved (today : string) (wordObj : VocabularyEntry) (s : State) :
  exists w,
    w ∈ savedWords (userStats (commit (saveWord today wordObj s) s)) /\
    word (saved w) = word wordObj.
Proof.
  unfold saveWord.
  pose proof (find_same_word wordObj (savedWords (userStats s))) as Hfind.
  destruct (List.find (same_word wordObj) (savedWords (userStats s))) as [w|].
  - exists w. exact Hfind.
  - exists {| saved := wordObj; date := today |}. split; [|reflexivity].
    change (savedWords (userStats (commit [SetUserStats
              (append_word {| saved := wordObj; date := today |})] s)))
      with (savedWords (userStats s)
            ++ [{| saved := wordObj; date := today |}]).
    apply elem_of_app. right. now left.
Qed.

(** C6: [saveWord] leaves the state as it was when an entry of the same
    surface form is saved already; otherwise it appends the entry, once,
    with the date of the day; after a save, saving any entry of that
    surface form again changes nothing, so the set keeps its size. *)
Theorem saveWord_idempotent (today : string) (wordObj : VocabularyEntry)
  (s : State) :
  let s1 := commit (saveWord today wordObj s) s in
  ((exists w, w ∈ savedWords (userStats s) /\ word (saved w) = word wordObj) ->
   s1 = s) /\
  ((forall w, w ∈ savedWords (userStats s) -> word (saved w) <> word wordObj) ->
   savedWords (userStats s1)
   = savedWords (userStats s) ++ [{| saved := wordObj; date := today |}]) /\
  (forall today2 again,
     word again = word wordObj ->
     commit (saveWord today2 again s1) s1 = s1) /\
  (forall today2,
     length (savedWords (userStats (commit (saveWord today2 wordObj s1) s1)))
     = length (savedWords (userStats s1))).
Proof.
  intros s1.
  assert (forall today2 again, word again = word wordObj ->
            commit (saveWord today2 again s1) s1 = s1) as Hagain.
  { intros today2 again Hsame. rewrite saveWord_present; [reflexivity|].
    rewrite Hsame. apply saveWord_saved. }
  repeat split.
  - intros Hpresent. subst s1. now rewrite saveWord_present.
  - intros Habsent. subst s1. now rewrite saveWord_absent.
  - exact Hagain.
  - intros today2. now rewrite Hagain.
Qed.

(** C10: a fresh session starts from the demo values: 1250 experience
    points, a streak of 12, 40 points today, a goal of 100 and no saved
    word; the totals do not start at zero. *)
Theorem initial_stats_demo_values :
  xp (userStats initial_state) = 1250%Z /\
  streak (userStats initial_state) = 12%Z /\
  todayXp (userStats initial_state) = 40%Z /\
  goalXp (userStats initial_state) = 100%Z /\
  savedWords (userStats initial_state) = [] /\
  xp (userStats initial_state) <> 0%Z /\
  todayXp (userStats initial_state) <> 0%Z /\
  streak (userStats initial_state) <> 0%Z.
Proof. repeat split; discriminate. Qed.

(** * The analyze request *)

(** C5, as stated, fails for a network failure: the message shown is the
    one of the error [fetch] threw, which is neither a detail string of the
    collaborator nor the default message. *)
Lemma handleUrlSubmit_network_message :
  ~ surfaces_detail_or_default (Rejected "Failed to fetch")
      (errorMsg (commit
         (updates (handleUrlSubmit (Rejected "Failed to fetch") typed_state []))
         typed_state)).
Proof.
  intros [H | H].
  - discriminate H.
  - vm_compute in H. discriminate H.
Qed.

(** C5, amended: a request that ends in a network failure or a response
    that is not [ok] sets the error message to the message of the error
    caught: the body's [detail] string when it is there and not empty, the
    default message when it is missing or empty, and the message of the
    thrown error when the request itself failed or the body could not be
    read (it is not JSON, or it is [null]).  It shows the home view, clears
    the loading flag and leaves the stored bundle and the arrays as they
    were. *)
Theorem handleUrlSubmit_failure (o : fetch_outcome) (s : State) (st : Store) :
  urlInput s <> "" -> request_failed o ->
  let r := handleUrlSubmit o s st in
  let s' := commit (updates r) s in
  (forall detail, o = NotOk (Parsed (Some detail)) -> detail <> "" ->
     errorMsg s' = detail) /\
  (o = NotOk (Parsed None) \/ o = NotOk (Parsed (Some "")) ->
     errorMsg s' = "분석에 실패했습니다.") /\
  (forall m, o = Rejected m -> errorMsg s' = m) /\
  (forall m, o = NotOk (Unparsable m) \/ o = NotOk (NullBody m) ->
     errorMsg s' = m) /\
  view s' = home /\
  activeData s' = activeData s /\
  arrays r = st /\
  isLoading s' = false.
Proof.
  intros Hurl Hfailed. unfold handleUrlSubmit, handleUrlSubmit_begin, submit_guard.
  rewrite bool_decide_eq_false_2 by assumption.
  assert (forall detail : string, detail <> "" ->
            detail_or_default (Some detail) = detail) as Hgiven.
  { intros detail Hne. unfold detail_or_default.
    now rewrite bool_decide_eq_false_2. }
  destruct o as [m | [detail | m | m] | data]; [| | | |destruct Hfailed].
  all: cbn; repeat split.
  all: try (intros; congruence).
  all: try (intros ? [H | H]; congruence).
  all: try (intros [H | H]; discriminate H).
  - intros detail' [= ->] Hne. now apply Hgiven.
  - intros [[= ->] | [= ->]]; reflexivity.
Qed.

Lemma handleUrlSubmit_failure_witness :
  let r := handleUrlSubmit (NotOk (Parsed (Some "Invalid URL"))) typed_state [] in
  let s' := commit (updates r) typed_state in
  urlInput typed_state <> "" /\
  errorMsg s' = "Invalid URL" /\
  view s' = home /\
  activeData s' = activeData typed_state /\
  arrays r = [] /\
  isLoading s' = false.
Proof.
  assert (urlInput typed_state <> "") as Hurl by discriminate.
  destruct (handleUrlSubmit_failure (NotOk (Parsed (Some "Invalid URL")))
              typed_state [] Hurl I)
    as (Hdetail & _ & _ & _ & Hview & Hdata & Harrays & Hloading).
  split; [exact Hurl|]. split; [|repeat split; assumption].
  apply (Hdetail "Invalid URL"); [reflexivity | discriminate].
Defined.

(** * The transcript synchronizer *)

(** While a line later than the playback time exists, the index after
    the tick is that of the line playing: its timestamp is at or before
    the playback time and the next line's is after it; before the first
    line the index is 0.  The transcript's order plays no role. *)
Lemma onProgress_active_line (t : Q) (s : State) (d : StudyBundle)
  (lines : list TranscriptLine) :
  activeData s = Some d -> script d = Some lines ->
  (exists line, line ∈ lines /\ (t < time line)%Q) ->
  exists us,
    onProgress t s = Some us /\
    ((exists cur nxt,
        lines !! currentScriptIdx (commit us s) = Some cur /\
        lines !! S (currentScriptIdx (commit us s)) = Some nxt /\
        (time cur <= t)%Q /\ (t < time nxt)%Q) \/
     (currentScriptIdx (commit us s) = 0 /\
      exists first, lines !! 0 = Some first /\ (t < time first)%Q)).
Proof.
  intros Hd Hs (line & Hline & Hlater).
  unfold onProgress. rewrite Hd. cbn [mbind option_bind]. rewrite Hs.
  eexists. split; [reflexivity|].
  destruct (scan_cases lines t) as [Hall | (n & x & Hn & Hx & Hbefore)].
  - rewrite Forall_forall in Hall. apply Hall in Hline.
    exfalso. exact (Qlt_not_le _ _ Hlater Hline).
  - rewrite (sync_found lines _ t n x Hn Hx Hbefore).
    assert (currentScriptIdx
              (commit (if bool_decide (n = S (currentScriptIdx s)) then []
                       else [SetCurrentScriptIdx (pred n)]) s) = pred n) as ->.
    { case_bool_decide as Hc; [|reflexivity].
      change (currentScriptIdx s = pred n). lia. }
    destruct n as [|i]; simpl pred.
    + right. split; [reflexivity|]. now exists x.
    + left. rewrite Forall_lookup in Hbefore.
      destruct (lookup_lt_is_Some_2 lines i) as [cur Hcur].
      { apply lookup_lt_Some in Hn. lia. }
      exists cur, x. repeat split; try assumption.
      apply (Hbefore i cur). rewrite lookup_take_lt by lia. assumption.
Qed.

(** Once the playback time has reached every line's timestamp the scan
    finds nothing and [onProgress] calls no setter: the index stays. *)
Lemma onProgress_not_found (t : Q) (s : State) (d : StudyBundle)
  (lines : list TranscriptLine) :
  activeData s = Some d -> script d = Some lines ->
  Forall (fun line => (time line <= t)%Q) lines ->
  onProgress t s = Some [].
Proof.
  intros Hd Hs Hall. unfold onProgress. rewrite Hd.
  cbn [mbind option_bind]. rewrite Hs. now rewrite sync_not_found.
Qed.

(** The index a tick sets is that of a line that has a successor, or 0:
    on a transcript of two lines or more, playback never makes the last
    line the active one. *)
Lemma onProgress_never_last (t : Q) (s : State) (d : StudyBundle)
  (lines : list TranscriptLine) (us : list update) (i : nat) :
  activeData s = Some d -> script d = Some lines ->
  onProgress t s = Some us -> SetCurrentScriptIdx i ∈ us ->
  i = 0 \/ S i < length lines.
Proof.
  intros Hd Hs. unfold onProgress. rewrite Hd. cbn [mbind option_bind].
  rewrite Hs. intros [= <-] Hi.
  destruct (scan_cases lines t) as [Hall | (n & x & Hn & Hx & Hbefore)].
  - rewrite (sync_not_found lines _ t Hall) in Hi. inversion Hi.
  - rewrite (sync_found lines _ t n x Hn Hx Hbefore) in Hi.
    case_bool_decide; [inversion Hi|].
    apply list_elem_of_singleton in Hi. injection Hi as ->.
    apply lookup_lt_Some in Hn. destruct n; simpl; [now left | right; lia].
Qed.

(** C2, on the transcript with lines at 0 s, 5 s and 10 s, the second
    line active and a playback time of 12 s: the transcript is sorted and
    the playback time is past the last line's timestamp, yet the index
    after the tick is still 1, not the last index 2. *)
Theorem onProgress_past_last_line :
  script sample_bundle = Some [line_at 0; line_at 5; line_at 10] /\
  (time (line_at 10) <= 12)%Q /\
  currentScriptIdx study_state = 1 /\
  onProgress 12 study_state = Some [] /\
  currentScriptIdx (commit [] study_state) = 1.
Proof.
  repeat split.
  - unfold Qle. simpl. lia.
Qed.

(** Before the first line every tick calls [setCurrentScriptIdx(0)],
    whatever the current index is, 0 included: the scan finds the first
    line, and the guard compares [0 - 1] with the current index. *)
Lemma onProgress_before_first_line (t : Q) (s : State) (d : StudyBundle)
  (first : TranscriptLine) (rest : list TranscriptLine) :
  activeData s = Some d -> script d = Some (first :: rest) ->
  (t < time first)%Q ->
  onProgress t s = Some [SetCurrentScriptIdx 0].
Proof.
  intros Hd Hs Hlater. unfold onProgress. rewrite Hd.
  cbn [mbind option_bind]. rewrite Hs.
  rewrite (sync_found (first :: rest) _ t 0 first eq_refl Hlater);
    [|constructor].
  now rewrite bool_decide_eq_false_2.
Qed.

(** From the first line on the guard does what it is there for: a tick
    calls at most one setter, that of the active index, and an index it
    sets that is the current one is 0, set before the first line. *)
Lemma onProgress_emits_current_only_before_first_line (t : Q) (s : State)
  (d : StudyBundle) (lines : list TranscriptLine) (us : list update) (i : nat) :
  activeData s = Some d -> script d = Some lines ->
  onProgress t s = Some us -> SetCurrentScriptIdx i ∈ us ->
  us = [SetCurrentScriptIdx i] /\
  (i = currentScriptIdx s ->
   i = 0 /\ exists first, lines !! 0 = Some first /\ (t < time first)%Q).
Proof.
  intros Hd Hs. unfold onProgress. rewrite Hd. cbn [mbind option_bind].
  rewrite Hs. intros [= <-] Hi.
  destruct (scan_cases lines t) as [Hall | (n & x & Hn & Hx & Hbefore)].
  - rewrite (sync_not_found lines _ t Hall) in Hi. inversion Hi.
  - rewrite (sync_found lines _ t n x Hn Hx Hbefore) in Hi |- *.
    case_bool_decide as Hc; [inversion Hi|].
    apply list_elem_of_singleton in Hi. injection Hi as ->.
    split; [reflexivity|]. intros Hcur.
    destruct n as [|k]; simpl pred in *; [|lia].
    split; [reflexivity|]. now exists x.
Qed.

(** C9, on a transcript whose first line starts at 5 s, with the first
    line active and a playback time of 2 s: the scan finds the first line,
    the computed active index is [Math.max(0, 0 - 1)], that is 0, which is
    the current index, and [setCurrentScriptIdx(0)] is called all the same,
    because the guard compares the unclamped [0 - 1] with the current
    index.  The call leaves the state as it was. *)
Theorem onProgress_emits_unchanged_index :
  (script <$> activeData late_start_state)
  = Some (Some [line_at 5; line_at 10]) /\
  currentScriptIdx late_start_state = 0 /\
  findIndex (later_than 2) [line_at 5; line_at 10] = 0%Z /\
  Z.to_nat (Z.max 0 (0 - 1)) = currentScriptIdx late_start_state /\
  onProgress 2 late_start_state = Some [SetCurrentScriptIdx 0] /\
  commit [SetCurrentScriptIdx 0] late_start_state = late_start_state.
Proof. repeat split. Qed.

(** * Further properties of the handlers *)

(** ** The analyze request *)

(** X1: a request that is answered with a parsable [ok] body stores the
    body as the bundle, with the thumbnail address built from its video
    identifier, shows the study view with playback on, clears the loading
    flag and leaves the error message empty.  The bank of the body is a new
    array of the store; the arrays that existed are kept, and the user
    statistics are not touched. *)
Theorem handleUrlSubmit_success (data : AnalysisData) (s : State) (st : Store) :
  urlInput s <> "" ->
  let r := handleUrlSubmit (Ok (Parsed data)) s st in
  let s' := commit (updates r) s in
  view s' = study /\ playing s' = true /\ isLoading s' = false /\
  errorMsg s' = "" /\ userStats s' = userStats s /\
  effects r = [Fetch (urlInput s)] /\
  (exists bundle,
     activeData s' = Some bundle /\
     videoId bundle = data_videoId data /\
     thumbnail bundle
       = String.append "https://img.youtube.com/vi/"
           (String.append (data_videoId data) "/mqdefault.jpg") /\
     script bundle = data_script data /\
     vocabulary bundle = data_vocabulary data /\
     match data_quizBank data with
     | Some bank =>
         exists b, quizBank bundle = Some b /\ st !! b = None /\
                   arrays r !! b = Some bank
     | None => quizBank bundle = None /\ arrays r = st
     end) /\
  (forall a arr, st !! a = Some arr -> arrays r !! a = Some arr).
Proof.
  intros Hurl. unfold handleUrlSubmit, handleUrlSubmit_begin,
    handleUrlSubmit_settle, submit_guard, normalize.
  rewrite bool_decide_eq_false_2 by assumption. cbn [awaited].
  destruct (data_quizBank data) as [bank|] eqn:Hbank; cbn.
  - repeat split.
    + eexists. repeat split. cbn. exists (length st). repeat split.
      * apply lookup_ge_None. lia.
      * apply (list_lookup_middle st [] bank (length st) eq_refl).
    + intros a arr Ha. rewrite lookup_app_l; [assumption|].
      eapply lookup_lt_Some; eauto.
  - repeat split.
    + eexists. repeat split.
    + auto.
Qed.

Lemma handleUrlSubmit_success_witness :
  let data := {| data_videoId := "abc"; data_script := Some [line_at 0];
                 data_vocabulary := None; data_quizBank := Some [q_easy] |} in
  let r := handleUrlSubmit (Ok (Parsed data)) typed_state [[q_hard]] in
  let s' := commit (updates r) typed_state in
  view s' = study /\ playing s' = true /\ isLoading s' = false /\
  errorMsg s' = "" /\ userStats s' = userStats typed_state /\
  effects r = [Fetch (urlInput typed_state)] /\
  (exists bundle,
     activeData s' = Some bundle /\
     videoId bundle = data_videoId data /\
     thumbnail bundle
       = String.append "https://img.youtube.com/vi/"
           (String.append (data_videoId data) "/mqdefault.jpg") /\
     script bundle = data_script data /\
     vocabulary bundle = data_vocabulary data /\
     match data_quizBank data with
     | Some bank =>
         exists b, quizBank bundle = Some b /\ [[q_hard]] !! b = None /\
                   arrays r !! b = Some bank
     | None => quizBank bundle = None /\ arrays r = [[q_hard]]
     end) /\
  (forall a arr, [[q_hard]] !! a = Some arr -> arrays r !! a = Some arr).
Proof.
  apply (handleUrlSubmit_success
           {| data_videoId := "abc"; data_script := Some [line_at 0];
              data_vocabulary := None; data_quizBank := Some [q_easy] |}
           typed_state [[q_hard]]).
  discriminate.
Defined.

(** X2: with an empty link [handleUrlSubmit] does nothing at all: no setter
    call, no request.  With a link it sends one request, and whatever
    the request ends in, the loading flag is cleared and the view is the
    study view or the home view, never the analyzing view.  It is the study
    view exactly when the answer was [ok] and its body was read: an [ok]
    answer whose body is not JSON, or is [null] (reading [data.videoId]
    throws inside [try]), ends on the home view with the message of the
    error thrown, the bundle and the arrays as they were. *)
Theorem handleUrlSubmit_settles (o : fetch_outcome) (s : State) (st : Store) :
  let r := handleUrlSubmit o s st in
  let s' := commit (updates r) s in
  (urlInput s = "" -> updates r = [] /\ effects r = [] /\ arrays r = st) /\
  (urlInput s <> "" ->
   isLoading s' = false /\
   (view s' = study \/ view s' = home) /\
   (view s' = study <-> exists data, o = Ok (Parsed data)) /\
   (forall m, o = Ok (Unparsable m) \/ o = Ok (NullBody m) ->
      view s' = home /\ errorMsg s' = m /\ activeData s' = activeData s /\
      arrays r = st) /\
   exists rest, effects r = Fetch (urlInput s) :: rest /\
                Forall (fun e => forall u, e <> Fetch u) rest).
Proof.
  unfold handleUrlSubmit, handleUrlSubmit_begin, handleUrlSubmit_settle,
    submit_guard.
  split.
  - intros Hurl. rewrite bool_decide_eq_true_2 by assumption. repeat split.
  - intros Hurl. rewrite bool_decide_eq_false_2 by assumption.
    destruct o as [m | [detail | m | m] | [data | m | m]]; cbn [awaited].
    all: unfold normalize.
    all: try (destruct (data_quizBank data) as [bank|]).
    all: cbn; repeat split; try (intros; discriminate); auto.
    all: try (intros (data' & Hdata); discriminate).
    all: try match goal with
             | H : _ \/ _ |- _ => destruct H as [H | H]; congruence
             end.
    all: try (eexists; split; [reflexivity|]; repeat constructor;
              intros; discriminate).
    all: try (eexists; reflexivity).
Qed.

(** ** The saved words *)

(** X3: [saveWord] keeps the saved surface forms pairwise distinct, removes
    and reorders nothing (the list before is a prefix of the list after),
    and adds at most one entry. *)
Theorem saveWord_keeps_distinct (today : string) (wordObj : VocabularyEntry)
  (s : State) :
  NoDup (saved_forms s) ->
  let s' := commit (saveWord today wordObj s) s in
  NoDup (saved_forms s') /\
  savedWords (userStats s) `prefix_of` savedWords (userStats s') /\
  length (savedWords (userStats s')) <= S (length (savedWords (userStats s))) /\
  word wordObj ∈ saved_forms s'.
Proof.
  intros Hnodup s'. subst s'. unfold saveWord.
  pose proof (find_same_word wordObj (savedWords (userStats s))) as Hfind.
  destruct (List.find (same_word wordObj) (savedWords (userStats s))) as [w|].
  - change (commit [] s) with s. destruct Hfind as [Hin Hsame].
    repeat split; [assumption | reflexivity | lia |].
    unfold saved_forms. rewrite <- Hsame.
    now apply (list_elem_of_fmap_2 (fun w => word (saved w))).
  - unfold saved_forms.
    change (savedWords (userStats (commit [SetUserStats
              (append_word {| saved := wordObj; date := today |})] s)))
      with (savedWords (userStats s)
            ++ [{| saved := wordObj; date := today |}]).
    rewrite fmap_app, length_app. simpl. repeat split.
    + apply NoDup_app. repeat split; [assumption | | apply NoDup_singleton].
      intros x Hx Hx'. apply list_elem_of_singleton in Hx'. subst x.
      apply list_elem_of_fmap in Hx as (w & Hw & Hin).
      rewrite Forall_forall in Hfind. apply (Hfind w Hin). now symmetry.
    + now apply prefix_app_r.
    + lia.
    + apply elem_of_app. right. now left.
Qed.

Lemma saveWord_keeps_distinct_witness :
  let s' := commit (saveWord "2026. 1. 1."
                      {| word := "apple"; type := "noun"; meaning := "사과" |}
                      initial_state) initial_state in
  NoDup (saved_forms s') /\
  savedWords (userStats initial_state) `prefix_of` savedWords (userStats s') /\
  length (savedWords (userStats s'))
    <= S (length (savedWords (userStats initial_state))) /\
  "apple" ∈ saved_forms s'.
Proof.
  apply (saveWord_keeps_distinct "2026. 1. 1."
           {| word := "apple"; type := "noun"; meaning := "사과" |}
           initial_state).
  constructor.
Defined.

(** ** The synchronizer *)

(** The index after a tick, when the first line later than the playback
    time is line [n]: the index before it, clamped. *)
Lemma onProgress_found_index (t : Q) (s : State) (d : StudyBundle)
  (lines : list TranscriptLine) (n : nat) (x : TranscriptLine) :
  activeData s = Some d -> script d = Some lines ->
  lines !! n = Some x -> (t < time x)%Q ->
  Forall (fun line => (time line <= t)%Q) (take n lines) ->
  exists us,
    onProgress t s = Some us /\
    commit us s = commit [SetCurrentScriptIdx (pred n)] s.
Proof.
  intros Hd Hs Hn Hx Hbefore. unfold onProgress. rewrite Hd.
  cbn [mbind option_bind]. rewrite Hs. eexists. split; [reflexivity|].
  rewrite (sync_found lines _ t n x Hn Hx Hbefore).
  case_bool_decide as Hc; [|reflexivity].
  replace (pred n) with (currentScriptIdx s) by lia. reflexivity.
Qed.

(** X4: a second tick at the same playback time changes nothing: the state
    after two ticks is the state after one. *)
Theorem onProgress_idempotent (t : Q) (s : State) (us : list update) :
  onProgress t s = Some us ->
  exists us',
    onProgress t (commit us s) = Some us' /\
    commit us' (commit us s) = commit us s.
Proof.
  unfold onProgress. destruct (activeData s) as [d|] eqn:Hd; [|discriminate].
  cbn [mbind option_bind].
  destruct (script d) as [lines|] eqn:Hs.
  - intros [= <-].
    destruct (scan_cases lines t) as [Hall | (n & x & Hn & Hx & Hbefore)].
    + rewrite (sync_not_found lines _ t Hall).
      change (commit [] s) with s. rewrite Hd. cbn [mbind option_bind].
      rewrite Hs, (sync_not_found lines _ t Hall). now eexists.
    + rewrite (sync_found lines _ t n x Hn Hx Hbefore).
      case_bool_decide as Hc.
      * change (commit [] s) with s. rewrite Hd. cbn [mbind option_bind].
        rewrite Hs, (sync_found lines _ t n x Hn Hx Hbefore).
        rewrite bool_decide_eq_true_2 by exact Hc. now eexists.
      * set (s1 := commit [SetCurrentScriptIdx (pred n)] s).
        change (activeData s1) with (activeData s). rewrite Hd.
        cbn [mbind option_bind]. rewrite Hs.
        rewrite (sync_found lines _ t n x Hn Hx Hbefore).
        eexists. split; [reflexivity|].
        case_bool_decide; reflexivity.
  - intros [= <-]. change (commit [] s) with s. rewrite Hd.
    cbn [mbind option_bind]. rewrite Hs. now eexists.
Qed.

Lemma onProgress_idempotent_witness :
  exists us',
    onProgress 7 (commit [SetCurrentScriptIdx 1]
                    (commit [SetCurrentScriptIdx 0] study_state)) = Some us' /\
    commit us' (commit [SetCurrentScriptIdx 1]
                  (commit [SetCurrentScriptIdx 0] study_state))
    = commit [SetCurrentScriptIdx 1]
        (commit [SetCurrentScriptIdx 0] study_state).
Proof.
  apply (onProgress_idempotent 7 (commit [SetCurrentScriptIdx 0] study_state)
           [SetCurrentScriptIdx 1]).
  reflexivity.
Defined.

Lemma strictly_increasing_lookup (lines : list TranscriptLine) (j k : nat)
  (a b : TranscriptLine) :
  strictly_increasing lines -> j < k ->
  lines !! j = Some a -> lines !! k = Some b -> (time a < time b)%Q.
Proof.
  intros Hsorted. revert j k.
  induction Hsorted as [|x l Hl IH Hx]; intros j k Hjk Hj Hk.
  - discriminate.
  - destruct k as [|k]; [lia|]. destruct j as [|j]; simpl in *.
    + injection Hj as <-. rewrite Forall_forall in Hx. apply Hx.
      eapply list_elem_of_lookup_2; eauto.
    + apply (IH j k); [lia | assumption | assumption].
Qed.

(** X5: clicking a line makes it the active one, turns playback on and seeks
    the player to the line's timestamp, when the player is mounted; it
    does nothing when it is not.  On a transcript whose timestamps
    strictly increase, the tick that reports the timestamp sought leaves
    the clicked line active, the last line included. *)
Theorem handleSeek_then_progress (s : State) (d : StudyBundle)
  (lines : list TranscriptLine) (i : nat) (line : TranscriptLine) :
  activeData s = Some d -> script d = Some lines ->
  strictly_increasing lines -> lines !! i = Some line ->
  let clicked := commit (handleSeek true (time line) i).1 s in
  (handleSeek true (time line) i).2 = [SeekTo (time line)] /\
  handleSeek false (time line) i = ([], []) /\
  currentScriptIdx clicked = i /\ playing clicked = true /\
  onProgress (time line) clicked = Some [].
Proof.
  intros Hd Hs Hsorted Hi clicked. repeat split.
  unfold onProgress. change (activeData clicked) with (activeData s).
  rewrite Hd. cbn [mbind option_bind]. rewrite Hs.
  change (currentScriptIdx clicked) with i. f_equal.
  assert (Forall (fun l => (time l <= time line)%Q) (take (S i) lines))
    as Hbefore.
  { apply Forall_lookup. intros j x Hj.
    apply lookup_take_Some in Hj as [Hj Hlt].
    destruct (decide (j = i)) as [->|Hne].
    - rewrite Hi in Hj. injection Hj as <-. apply Qle_refl.
    - apply Qlt_le_weak.
      apply (strictly_increasing_lookup lines j i x line); auto. lia. }
  destruct (lines !! S i) as [nxt|] eqn:Hnxt.
  - rewrite (sync_found lines i (time line) (S i) nxt Hnxt); [|  |assumption].
    + now rewrite bool_decide_eq_true_2.
    + apply (strictly_increasing_lookup lines i (S i) line nxt); auto.
  - apply sync_not_found. apply lookup_ge_None in Hnxt.
    rewrite take_ge in Hbefore by lia. assumption.
Qed.

Lemma handleSeek_then_progress_witness :
  let clicked := commit (handleSeek true (time (line_at 10)) 2).1 study_state in
  (handleSeek true (time (line_at 10)) 2).2 = [SeekTo (time (line_at 10))] /\
  handleSeek false (time (line_at 10)) 2 = ([], []) /\
  currentScriptIdx clicked = 2 /\ playing clicked = true /\
  onProgress (time (line_at 10)) clicked = Some [].
Proof.
  apply (handleSeek_then_progress study_state sample_bundle
           [line_at 0; line_at 5; line_at 10] 2 (line_at 10)).
  - reflexivity.
  - reflexivity.
  - unfold strictly_increasing.
    repeat (constructor; try (unfold Qlt; simpl; lia)).
  - reflexivity.
Defined.

(** X6: a later playback time never gives an earlier line: of two ticks from
    the same state, while a line later than both times exists, the tick
    with the later time leaves an index at least as large.  This needs no
    order on the transcript. *)
Theorem onProgress_monotone (t1 t2 : Q) (s : State) (d : StudyBundle)
  (lines : list TranscriptLine) :
  activeData s = Some d -> script d = Some lines ->
  (t1 <= t2)%Q ->
  (exists line, line ∈ lines /\ (t2 < time line)%Q) ->
  exists us1 us2,
    onProgress t1 s = Some us1 /\ onProgress t2 s = Some us2 /\
    currentScriptIdx (commit us1 s) <= currentScriptIdx (commit us2 s).
Proof.
  intros Hd Hs Hle (line & Hline & Hlater).
  destruct (scan_cases lines t2) as [Hall | (n2 & x2 & Hn2 & Hx2 & Hb2)].
  { rewrite Forall_forall in Hall. apply Hall in Hline.
    exfalso. exact (Qlt_not_le _ _ Hlater Hline). }
  destruct (scan_cases lines t1) as [Hall | (n1 & x1 & Hn1 & Hx1 & Hb1)].
  { rewrite Forall_forall in Hall. apply Hall in Hline.
    exfalso. apply (Qlt_not_le _ _ Hlater). now apply Qle_trans with t1. }
  destruct (onProgress_found_index t1 s d lines n1 x1 Hd Hs Hn1 Hx1 Hb1)
    as (us1 & Hrun1 & Hidx1).
  destruct (onProgress_found_index t2 s d lines n2 x2 Hd Hs Hn2 Hx2 Hb2)
    as (us2 & Hrun2 & Hidx2).
  exists us1, us2. split; [assumption|]. split; [assumption|].
  rewrite Hidx1, Hidx2.
  change (pred n1 <= pred n2).
  assert (n1 <= n2); [|lia].
  destruct (decide (n1 <= n2)) as [|Hgt]; [assumption|]. exfalso.
  rewrite Forall_lookup in Hb1.
  assert (time x2 <= t1)%Q as Hx2'.
  { apply (Hb1 n2 x2). rewrite lookup_take_lt by lia. assumption. }
  apply (Qlt_not_le _ _ Hx2). now apply Qle_trans with t1.
Qed.

Lemma onProgress_monotone_witness :
  exists us1 us2,
    onProgress 2 study_state = Some us1 /\ onProgress 7 study_state = Some us2 /\
    currentScriptIdx (commit us1 study_state)
    <= currentScriptIdx (commit us2 study_state).
Proof.
  apply (onProgress_monotone 2 7 study_state sample_bundle
           [line_at 0; line_at 5; line_at 10]).
  - reflexivity.
  - reflexivity.
  - unfold Qle. simpl. lia.
  - exists (line_at 10). split.
    + apply list_elem_of_In. simpl. tauto.
    + unfold Qlt. simpl. lia.
Defined.

(** ** The quiz runner *)

(** One question of a run, from a state that shows a question not yet
    answered: the score grows by one exactly when the choice is the
    question's answer; then the next question is shown unanswered, or, after
    the last question, the quiz is finished with that score. *)
Lemma answer_with_step (idx : nat) (s : State) (q : SessionQuestion) :
  isAnswered s = false -> quizSession s !! currentQIdx s = Some q ->
  let gain := (if bool_decide (answer (base q) = Z.of_nat idx)
               then 1 else 0)%Z in
  exists s',
    answer_with idx s = Some s' /\
    score s' = (score s + gain)%Z /\ quizSession s' = quizSession s /\
    if bool_decide (S (currentQIdx s) < length (quizSession s))
    then currentQIdx s' = S (currentQIdx s) /\ isAnswered s' = false /\
         view s' = view s /\ userStats s' = userStats s
    else view s' = result /\
         userStats s' = add_xp ((score s + gain) * 10 + 20) (userStats s).
Proof.
  intros Hopen Hq gain. unfold answer_with, clickOption. rewrite Hopen.
  set (chosen := commit [SetSelectedOpt (Some (Z.of_nat idx))] s).
  unfold checkAnswer.
  change (quizSession chosen !! currentQIdx chosen)
    with (quizSession s !! currentQIdx s).
  rewrite Hq. cbn [mbind option_bind].
  change (selectedOpt chosen) with (Some (Z.of_nat idx)).
  assert (bool_decide (Some (answer (base q)) = Some (Z.of_nat idx))
          = bool_decide (answer (base q) = Z.of_nat idx)) as ->.
  { apply bool_decide_ext. split; congruence. }
  subst gain. unfold nextQuestion, finishQuiz, gainedXp.
  destruct (bool_decide (answer (base q) = Z.of_nat idx)); cbn [app].
  all: eexists; (split; [reflexivity|]).
  all: set (checked := commit (SetIsCorrect _ :: _) _).
  all: change (currentQIdx checked) with (currentQIdx s).
  all: change (quizSession checked) with (quizSession s).
  all: case_bool_decide as Hlast.
  all: try (replace (Z.of_nat (currentQIdx s)
                     <? Z.of_nat (length (quizSession s)) - 1)%Z with true
              by (symmetry; apply Z.ltb_lt; lia)).
  all: try (replace (Z.of_nat (currentQIdx s)
                     <? Z.of_nat (length (quizSession s)) - 1)%Z with false
              by (symmetry; apply Z.ltb_ge; lia)).
  all: repeat split; try assumption.
  all: cbn; try (symmetry; apply Z.add_1_r); try (symmetry; apply Z.add_0_r).
  all: f_equal; f_equal;
    try (symmetry; apply Z.add_1_r); try (symmetry; apply Z.add_0_r).
  all: f_equal; symmetry; apply Z.add_0_r.
Qed.

Lemma correct_answers_nil_r (qs : list SessionQuestion) :
  correct_answers qs [] = 0%Z.
Proof. destruct qs; reflexivity. Qed.

(** X7: a run through the questions that are left, one choice for each: the
    run ends on the result view; the score has grown by the number of
    choices that were the answer of their question; the experience, in
    total and of the day, has grown by ten times the final score plus 20. *)
Theorem play_scores_correct_answers (choices : list nat) (s : State) :
  isAnswered s = false -> choices <> [] ->
  currentQIdx s + length choices = length (quizSession s) ->
  exists s',
    play choices s = Some s' /\ view s' = result /\
    score s' = (score s + correct_answers
                            (drop (currentQIdx s) (quizSession s)) choices)%Z /\
    xp (userStats s') = (xp (userStats s) + (score s' * 10 + 20))%Z /\
    todayXp (userStats s')
    = (todayXp (userStats s) + (score s' * 10 + 20))%Z.
Proof.
  revert s. induction choices as [|idx rest IH]; intros s Hopen Hne Hlen;
    [congruence|].
  simpl in Hlen.
  destruct (lookup_lt_is_Some_2 (quizSession s) (currentQIdx s)) as [q Hq];
    [lia|].
  destruct (answer_with_step idx s q Hopen Hq)
    as (s1 & Hstep & Hscore & Hsession & Hrest).
  rewrite (drop_S _ q _ Hq). simpl. rewrite Hstep. cbn [mbind option_bind].
  destruct rest as [|idx2 rest'].
  - rewrite bool_decide_eq_false_2 in Hrest by (simpl in Hlen; lia).
    destruct Hrest as (Hview & Hstats).
    exists s1. simpl. split; [reflexivity|]. split; [assumption|].
    rewrite Hscore, Hstats, correct_answers_nil_r. simpl. repeat split; lia.
  - rewrite bool_decide_eq_true_2 in Hrest by (simpl in Hlen; lia).
    destruct Hrest as (Hidx & Hopen1 & _ & Hstats).
    destruct (IH s1 Hopen1) as (s' & Hplay & Hview & Hscore' & Hxp & Htoday).
    + discriminate.
    + rewrite Hidx, Hsession. simpl in *. lia.
    + exists s'. split; [exact Hplay|]. split; [assumption|].
      rewrite Hidx, Hsession, Hscore, Hstats in *.
      repeat split; [lia | assumption | assumption].
Qed.

Lemma play_scores_correct_answers_witness :
  exists s',
    play [0; 1; 0]
      (commit (start_session (number_questions 3 [q_easy; q_easy; q_hard]))
         (setup_state {| count := 3; cfg_difficulty := "easy" |})) = Some s' /\
    view s' = result /\
    score s' = Z.add 0 (correct_answers
                          (drop 0 (number_questions 3
                                     [q_easy; q_easy; q_hard]))
                          [0; 1; 0]) /\
    xp (userStats s') = (1250 + (score s' * 10 + 20))%Z /\
    todayXp (userStats s') = (40 + (score s' * 10 + 20))%Z.
Proof.
  apply (play_scores_correct_answers [0; 1; 0]
           (commit (start_session
                      (number_questions 3 [q_easy; q_easy; q_hard]))
              (setup_state {| count := 3; cfg_difficulty := "easy" |}))).
  - reflexivity.
  - discriminate.
  - reflexivity.
Defined.

(** ** The quiz session builder *)

Lemma pool_NoDup (cfg : QuizConfig) (bank : list QuizQuestion) :
  NoDup bank -> NoDup (pool cfg bank).
Proof.
  intros H. unfold pool.
  destruct (List.filter (matches cfg) bank) as [|f0 fs] eqn:Hf; [assumption|].
  rewrite <- Hf. apply NoDup_ListNoDup, List.NoDup_filter.
  now apply NoDup_ListNoDup.
Qed.

(** X8: when the questions to draw from (those of the requested difficulty,
    or the whole bank when there is none) are at least as many as
    requested, and the bank holds no question twice, the session holds no
    question twice. *)
Theorem generateQuiz_no_repeats (E : Engine) (random : nat -> Draw)
  (fuel : nat) (s : State) (st : Store) (d : StudyBundle) (b : loc)
  (bank : list QuizQuestion) :
  rearranges E ->
  activeData s = Some d -> quizBank d = Some b -> st !! b = Some bank ->
  bank <> [] -> NoDup bank ->
  count (quizConfig s) <= length (pool (quizConfig s) bank) ->
  count (quizConfig s) < fuel ->
  exists r,
    generateQuiz E random fuel s st = Some r /\
    NoDup (base <$> quizSession (commit (updates r) s)).
Proof.
  intros HE Hd Hb Hbank Hne Hnodup Henough Hfuel.
  destruct (generateQuiz_spec E random fuel s st d b bank HE Hd Hb Hbank Hne
              Hfuel)
    as (extra & sorted & Hin & Hlen & Hperm & Hrun).
  eexists. split; [exact Hrun|]. cbn [updates].
  destruct (commit_start_session
              (number_questions (count (quizConfig s)) sorted) s) as (-> & _).
  rewrite number_questions_base.
  assert (extra = []) as -> by (apply length_zero_iff_nil; lia).
  rewrite app_nil_r in Hperm.
  eapply sublist_NoDup; [|apply sublist_take].
  rewrite <- Hperm. now apply pool_NoDup.
Qed.

Lemma generateQuiz_no_repeats_witness :
  exists r,
    generateQuiz insertion_engine (fun _ => half) 4
      (setup_state {| count := 3; cfg_difficulty := "normal" |})
      [[q_hard; q_easy; q_other]]
    = Some r /\
    NoDup (base <$> quizSession (commit (updates r)
             (setup_state {| count := 3; cfg_difficulty := "normal" |}))).
Proof.
  apply (generateQuiz_no_repeats insertion_engine (fun _ => half) 4
           (setup_state {| count := 3; cfg_difficulty := "normal" |})
           [[q_hard; q_easy; q_other]] sample_bundle 0
           [q_hard; q_easy; q_other]).
  - exact insertion_engine_rearranges.
  - reflexivity.
  - reflexivity.
  - reflexivity.
  - discriminate.
  - repeat (apply NoDup_cons; split;
            [rewrite ?elem_of_cons, elem_of_nil; intros H;
             repeat destruct H as [H | H]; try discriminate H; exact H|]).
    apply NoDup_nil_2.
  - simpl. lia.
  - simpl. lia.
Defined.

(** X9: when the questions to draw from are at most as many as requested, the
    session is a rearrangement of all of them together with
    [count - (their number)] repeats, each repeat one of them: every
    available question is asked at least once. *)
Theorem generateQuiz_asks_every_question (E : Engine) (random : nat -> Draw)
  (fuel : nat) (s : State) (st : Store) (d : StudyBundle) (b : loc)
  (bank : list QuizQuestion) :
  rearranges E ->
  activeData s = Some d -> quizBank d = Some b -> st !! b = Some bank ->
  bank <> [] ->
  length (pool (quizConfig s) bank) <= count (quizConfig s) ->
  count (quizConfig s) < fuel ->
  exists r repeats,
    generateQuiz E random fuel s st = Some r /\
    base <$> quizSession (commit (updates r) s)
      ≡ₚ pool (quizConfig s) bank ++ repeats /\
    length repeats
      = count (quizConfig s) - length (pool (quizConfig s) bank) /\
    Forall (fun q => q ∈ pool (quizConfig s) bank) repeats /\
    forall q, q ∈ pool (quizConfig s) bank ->
              q ∈ base <$> quizSession (commit (updates r) s).
Proof.
  intros HE Hd Hb Hbank Hne Hfew Hfuel.
  destruct (generateQuiz_spec E random fuel s st d b bank HE Hd Hb Hbank Hne
              Hfuel)
    as (extra & sorted & Hin & Hlen & Hperm & Hrun).
  eexists. exists extra. split; [exact Hrun|]. cbn [updates].
  destruct (commit_start_session
              (number_questions (count (quizConfig s)) sorted) s) as (-> & _).
  rewrite number_questions_base.
  assert (length sorted = count (quizConfig s)) as Hsize.
  { rewrite <- (Permutation_length Hperm), length_app, Hlen. lia. }
  rewrite take_ge by lia.
  repeat split; try assumption.
  - now symmetry.
  - intros q Hq. rewrite <- Hperm. apply elem_of_app. now left.
Qed.

Lemma generateQuiz_asks_every_question_witness :
  exists r repeats,
    generateQuiz insertion_engine (fun _ => half) 4
      (setup_state {| count := 3; cfg_difficulty := "hard" |})
      [[q_hard; q_easy; q_other]] = Some r /\
    base <$> quizSession (commit (updates r)
               (setup_state {| count := 3; cfg_difficulty := "hard" |}))
      ≡ₚ pool {| count := 3; cfg_difficulty := "hard" |}
           [q_hard; q_easy; q_other] ++ repeats /\
    length repeats
      = 3 - length (pool {| count := 3; cfg_difficulty := "hard" |}
                      [q_hard; q_easy; q_other]) /\
    Forall (fun q => q ∈ pool {| count := 3; cfg_difficulty := "hard" |}
                       [q_hard; q_easy; q_other]) repeats /\
    forall q, q ∈ pool {| count := 3; cfg_difficulty := "hard" |}
                    [q_hard; q_easy; q_other] ->
              q ∈ base <$> quizSession (commit (updates r)
                     (setup_state {| count := 3; cfg_difficulty := "hard" |})).
Proof.
  apply (generateQuiz_asks_every_question insertion_engine (fun _ => half) 4
           (setup_state {| count := 3; cfg_difficulty := "hard" |})
           [[q_hard; q_easy; q_other]] sample_bundle 0
           [q_hard; q_easy; q_other]).
  - exact insertion_engine_rearranges.
  - reflexivity.
  - reflexivity.
  - reflexivity.
  - discriminate.
  - vm_compute. lia.
  - simpl. lia.
Defined.

(** X10: what [generateQuiz] leaves alone when it builds a session: the user
    statistics, the bundle, the configuration and the player state are
    as before; the run state is reset (first question, score 0, nothing
    selected, not answered); no array of the store is removed and every
    array other than the bank is as before; the bank array still holds
    exactly the questions it held (each at least once), so it is never
    emptied. *)
Theorem generateQuiz_frame (E : Engine) (random : nat -> Draw)
  (fuel : nat) (s : State) (st : Store) (d : StudyBundle) (b : loc)
  (bank : list QuizQuestion) :
  rearranges E ->
  activeData s = Some d -> quizBank d = Some b -> st !! b = Some bank ->
  bank <> [] -> count (quizConfig s) < fuel ->
  exists r,
    generateQuiz E random fuel s st = Some r /\
    effects r = [] /\
    (let s' := commit (updates r) s in
     userStats s' = userStats s /\ activeData s' = activeData s /\
     quizConfig s' = quizConfig s /\ playing s' = playing s /\
     currentScriptIdx s' = currentScriptIdx s /\
     errorMsg s' = errorMsg s /\ isLoading s' = isLoading s /\
     urlInput s' = urlInput s /\
     currentQIdx s' = 0 /\ score s' = 0%Z /\ selectedOpt s' = None /\
     isAnswered s' = false) /\
    length (arrays r) = S (length st) /\
    (forall a arr, st !! a = Some arr -> a <> b -> arrays r !! a = Some arr) /\
    exists after,
      arrays r !! b = Some after /\ after <> [] /\
      forall q, q ∈ after <-> q ∈ bank.
Proof.
  intros HE Hd Hb Hbank Hne Hfuel.
  destruct (generateQuiz_spec E random fuel s st d b bank HE Hd Hb Hbank Hne
              Hfuel)
    as (extra & sorted & Hin & Hlen & Hperm & Hrun).
  assert (b < length st) as Hbound by (eapply lookup_lt_Some; eauto).
  eexists. split; [exact Hrun|]. cbn [updates effects arrays].
  split; [reflexivity|]. split; [repeat split|].
  split; [rewrite length_insert, length_app; simpl; lia|].
  unfold pool_address, pool in *.
  destruct (List.filter (matches (quizConfig s)) bank) as [|f0 fs] eqn:Hf.
  - split.
    + intros a arr Ha Hab. rewrite list_lookup_insert_ne by congruence.
      rewrite lookup_app_l; [assumption | eapply lookup_lt_Some; eauto].
    + exists sorted. split; [|split].
      * apply list_lookup_insert_eq. rewrite length_app. simpl. lia.
      * intros ->. apply Permutation_nil_r in Hperm.
        destruct bank; [congruence | discriminate].
      * intros q. rewrite <- Hperm, elem_of_app. split; [|tauto].
        intros [Hq | Hq]; [assumption|].
        rewrite Forall_forall in Hin. now apply Hin.
  - split.
    + intros a arr Ha Hab.
      assert (a < length st) by (eapply lookup_lt_Some; eauto).
      rewrite list_lookup_insert_ne by lia.
      rewrite lookup_app_l; assumption.
    + exists bank. split; [|split; [assumption | tauto]].
      rewrite list_lookup_insert_ne by lia.
      rewrite lookup_app_l; assumption.
Qed.

Lemma generateQuiz_frame_witness :
  exists r,
    generateQuiz insertion_engine (fun _ => half) 4
      (setup_state {| count := 3; cfg_difficulty := "normal" |})
      [[q_easy]] = Some r /\
    effects r = [] /\
    (let s' := commit (updates r)
                 (setup_state {| count := 3; cfg_difficulty := "normal" |}) in
     userStats s'
       = userStats (setup_state {| count := 3; cfg_difficulty := "normal" |}) /\
     activeData s'
       = activeData (setup_state {| count := 3; cfg_difficulty := "normal" |}) /\
     quizConfig s'
       = quizConfig (setup_state {| count := 3; cfg_difficulty := "normal" |}) /\
     playing s'
       = playing (setup_state {| count := 3; cfg_difficulty := "normal" |}) /\
     currentScriptIdx s'
       = currentScriptIdx
           (setup_state {| count := 3; cfg_difficulty := "normal" |}) /\
     errorMsg s'
       = errorMsg (setup_state {| count := 3; cfg_difficulty := "normal" |}) /\
     isLoading s'
       = isLoading (setup_state {| count := 3; cfg_difficulty := "normal" |}) /\
     urlInput s'
       = urlInput (setup_state {| count := 3; cfg_difficulty := "normal" |}) /\
     currentQIdx s' = 0 /\ score s' = 0%Z /\ selectedOpt s' = None /\
     isAnswered s' = false) /\
    length (arrays r) = S (length [[q_easy]]) /\
    (forall a arr, [[q_easy]] !! a = Some arr -> a <> 0 ->
                   arrays r !! a = Some arr) /\
    exists after,
      arrays r !! 0 = Some after /\ after <> [] /\
      forall q, q ∈ after <-> q ∈ [q_easy].
Proof.
  apply (generateQuiz_frame insertion_engine (fun _ => half) 4
           (setup_state {| count := 3; cfg_difficulty := "normal" |})
           [[q_easy]] sample_bundle 0 [q_easy]).
  - exact insertion_engine_rearranges.
  - reflexivity.
  - reflexivity.
  - reflexivity.
  - discriminate.
  - simpl. lia.
Defined.

(** * The component as a whole *)

(** The setter calls a tick can make. *)
Lemma onProgress_shape (t : Q) (s : State) (us : list update) :
  onProgress t s = Some us ->
  us = [] \/ exists i, us = [SetCurrentScriptIdx i].
Proof.
  unfold onProgress. destruct (activeData s) as [d|]; [|discriminate].
  cbn [mbind option_bind]. destruct (script d) as [lines|].
  - intros [= <-]. unfold sync.
    destruct (_ && _); [right; eauto | now left].
  - intros [= <-]. now left.
Qed.

(** The setter calls of [saveWord]. *)
Lemma saveWord_shape (today : string) (v : VocabularyEntry) (s : State) :
  saveWord today v s = [] \/
  (saveWord today v s
   = [SetUserStats (append_word {| saved := v; date := today |})] /\
   word v ∉ saved_forms s).
Proof.
  unfold saveWord.
  pose proof (find_same_word v (savedWords (userStats s))) as Hfind.
  destruct (List.find (same_word v) (savedWords (userStats s)));
    [now left | right].
  split; [reflexivity|]. unfold saved_forms. intros Hin.
  apply list_elem_of_fmap in Hin as (w & Hw & Hin).
  rewrite Forall_forall in Hfind. apply (Hfind w Hin). now symmetry.
Qed.

Lemma saved_forms_append (w : SavedWord) (s : State) :
  saved_forms (commit [SetUserStats (append_word w)] s)
  = saved_forms s ++ [word (saved w)].
Proof. unfold saved_forms. cbn. now rewrite fmap_app. Qed.

(** What [generateQuiz] can return: the rejection, which changes nothing,
    or a session of the length requested, with one array more in the store. *)
Lemma generateQuiz_outcome (E : Engine) (random : nat -> Draw) (fuel : nat)
  (s : State) (st : Store) (r : Reaction) :
  rearranges E -> count (quizConfig s) < fuel ->
  generateQuiz E random fuel s st = Some r ->
  (updates r = [] /\ arrays r = st) \/
  (exists l, updates r = start_session l /\
             length l = count (quizConfig s) /\
             length (arrays r) = S (length st)).
Proof.
  intros HE Hfuel Hrun.
  destruct (activeData s) as [d|] eqn:Hd.
  2: { unfold generateQuiz in Hrun. rewrite Hd in Hrun.
       injection Hrun as <-. now left. }
  destruct (quizBank d) as [b|] eqn:Hb.
  2: { unfold generateQuiz in Hrun.
       replace (activeData s ≫= quizBank) with (@None nat) in Hrun
         by (rewrite Hd; symmetry; exact Hb).
       injection Hrun as <-. now left. }
  assert (activeData s ≫= quizBank = Some b) as Href
    by (rewrite Hd; exact Hb).
  destruct (st !! b) as [bank|] eqn:Hbank.
  2: { unfold generateQuiz, array_length in Hrun.
       rewrite Href, Hbank in Hrun. discriminate Hrun. }
  destruct bank as [|q0 bank'].
  { unfold generateQuiz, array_length in Hrun. rewrite Href, Hbank in Hrun.
    injection Hrun as <-. now left. }
  destruct (generateQuiz_spec E random fuel s st d b (q0 :: bank')
              HE Hd Hb Hbank ltac:(discriminate) Hfuel)
    as (extra & sorted & Hin & Hlen & Hperm & Hrun').
  rewrite Hrun' in Hrun. injection Hrun as <-. right.
  eexists. split; [reflexivity|]. cbn [arrays]. split.
  - rewrite number_questions_length. apply length_take_le.
    rewrite <- (Permutation_length Hperm), length_app, Hlen. lia.
  - rewrite length_insert, length_app. simpl. lia.
Qed.

Ltac wf_field :=
  cbn; intros; try tauto; try discriminate; try (intuition discriminate);
  try (intuition congruence); eauto.

Ltac wf_finish H :=
  injection H as <-; constructor; cbn [ui store pending]; wf_field.

(** Every step keeps the world well formed. *)
Lemma react_well_formed (E : Engine) (e : event) (w w' : World) :
  rearranges E -> well_formed w -> react E e w = Some w' -> well_formed w'.
Proof.
  intros HE Hwf Hstep.
  destruct w as [[vw tb url ad ld em [x stk tx gx sw] pl ci [cnt dif]
                   qs qi so ia ic sc] st p].
  destruct Hwf
    as [Hcount Hload Han Hdata Hbank Hquiz Hres Hstats Hsel Hfb Hfin].
  unfold saved_forms in Hstats. cbn in Hcount, Hload, Han, Hdata, Hbank,
    Hquiz, Hres, Hstats, Hsel, Hfb, Hfin.
  unfold react, rerender, rerender_with in Hstep.
  cbn [ui store pending view isLoading activeTab activeData quizSession
       currentQIdx isAnswered selectedOpt quizConfig count cfg_difficulty]
    in Hstep.
  assert (vw <> analyzing -> p = false) as Hidle.
  { intros Hv. destruct p; [|reflexivity]. exfalso. now apply Hv, Han. }
  destruct e as [ | | |text| |o|t|tb'|idx|idx today| | |n|lv|random|idx| | | | ];
    destruct vw; try discriminate Hstep.
  all: try (rewrite (Hidle ltac:(discriminate)) in *).
  all: try discriminate Hstep.
  all: try (wf_finish Hstep; fail).
  - (* TypeUrl *)
    subst ld. wf_finish Hstep.
  - (* ClickSubmit *)
    subst ld. rewrite orb_false_r in Hstep.
    unfold handleUrlSubmit_begin in Hstep.
    destruct (submit_guard _); [discriminate Hstep|].
    wf_finish Hstep.
  - (* Settle *)
    assert (p = true) as -> by now apply Han.
    unfold handleUrlSubmit_settle, normalize in Hstep.
    destruct (awaited o) as [data|m].
    + destruct (data_quizBank data) as [bank|]; wf_finish Hstep.
      * match goal with H : Some _ = Some _ |- _ => injection H as <- end.
        match goal with H : quizBank _ = Some _ |- _ =>
          cbn in H; injection H as <- end.
        rewrite length_app. simpl. lia.
      * match goal with H : Some _ = Some _ |- _ => injection H as <- end.
        match goal with H : quizBank _ = Some _ |- _ =>
          cbn in H; discriminate H end.
    + wf_finish Hstep.
  - (* Progress *)
    match type of Hstep with context [onProgress t ?s] =>
      destruct (onProgress t s) as [us|] eqn:Hus; [|discriminate Hstep];
      destruct (onProgress_shape _ _ _ Hus) as [-> | (i & ->)] end;
      wf_finish Hstep.
  - (* ClickLine *)
    destruct tb; [|discriminate Hstep].
    destruct ad as [d|]; [|discriminate Hstep].
    cbn [mbind option_bind] in Hstep.
    destruct (script d) as [lines|]; [|discriminate Hstep].
    cbn [mbind option_bind] in Hstep.
    destruct (lines !! idx) as [line|]; [|discriminate Hstep].
    wf_finish Hstep.
  - (* ClickStar *)
    destruct tb; [discriminate Hstep|].
    destruct ad as [d|]; [|discriminate Hstep].
    cbn [mbind option_bind] in Hstep.
    destruct (vocabulary d) as [entries|]; [|discriminate Hstep].
    cbn [mbind option_bind] in Hstep.
    destruct (entries !! idx) as [v|]; [|discriminate Hstep].
    cbn [mbind option_bind] in Hstep.
    match type of Hstep with context [saveWord today v ?s] =>
      destruct (saveWord_shape today v s) as [Hsame | [Hnew Hfresh]] end.
    + rewrite Hsame in Hstep. wf_finish Hstep.
    + rewrite Hnew in Hstep. unfold saved_forms in Hfresh. cbn in Hfresh.
      destruct Hstats as (? & ? & ? & ? & Hnodup).
      wf_finish Hstep.
      repeat split; try assumption.
      unfold saved_forms. cbn. rewrite fmap_app. apply NoDup_app.
      repeat split; [assumption | | apply NoDup_singleton].
      intros y Hy Hy'. apply list_elem_of_singleton in Hy'. subst y.
      exact (Hfresh Hy).
  - (* ClickClose in the quiz view *)
    destruct (qs !! qi); [|discriminate Hstep].
    wf_finish Hstep.
  - (* ChooseCount *)
    destruct (bool_decide (n ∈ [3; 5; 10])) eqn:Hnum;
      [apply bool_decide_eq_true_1 in Hnum | discriminate Hstep].
    wf_finish Hstep.
    rewrite !elem_of_cons, elem_of_nil in Hnum. tauto.
  - (* ChooseDifficulty *)
    destruct (bool_decide (lv ∈ ["easy"; "normal"; "hard"]));
      [|discriminate Hstep].
    wf_finish Hstep.
  - (* ClickGenerate *)
    match type of Hstep with context [generateQuiz E random ?f ?s st] =>
      destruct (generateQuiz E random f s st) as [r|] eqn:Hrun;
        [|discriminate Hstep];
      destruct (generateQuiz_outcome E random f s st r HE
                  (Nat.lt_succ_diag_r _) Hrun)
        as [[Hus Hst] | (l & Hus & Hl & Hst)] end.
    + cbn [mbind option_bind] in Hstep. rewrite Hus, Hst in Hstep.
      wf_finish Hstep.
    + cbn [mbind option_bind] in Hstep. rewrite Hus in Hstep.
      cbn in Hl. wf_finish Hstep.
      * rewrite Hst. apply Nat.lt_lt_succ_r. eauto.
      * repeat split; try assumption; lia.
  - (* ClickOption *)
    destruct (qs !! qi) as [q|] eqn:Hq; [|discriminate Hstep].
    rewrite <- Hq in Hfb.
    cbn [mbind option_bind] in Hstep.
    destruct (options (base q) !! idx); [|discriminate Hstep].
    cbn [mbind option_bind] in Hstep. unfold clickOption in Hstep.
    cbn [isAnswered] in Hstep.
    destruct ia; wf_finish Hstep.
    match goal with H : Some _ = Some _ |- _ => injection H as <- end.
    eauto.
  - (* ClickCheck *)
    unfold checkAnswer in Hstep. cbn [quizSession currentQIdx] in Hstep.
    destruct (qs !! qi) as [q|] eqn:Hq; [|discriminate Hstep].
    cbn [mbind option_bind selectedOpt] in Hstep.
    destruct ia; [discriminate Hstep|].
    destruct so as [c|]; [|discriminate Hstep].
    cbn [mbind option_bind] in Hstep.
    destruct (Hquiz eq_refl) as (Hlen & Hidx & Hpos & Hle).
    destruct (bool_decide (Some (answer (base q)) = Some c)) eqn:Hc;
      wf_finish Hstep;
      first [ exists q; split; [exact Hq|]; split; [eauto|];
              symmetry; exact Hc
            | repeat split; try assumption; lia ].
  - (* ClickNext *)
    destruct (qs !! qi) as [q|]; [|discriminate Hstep].
    cbn [mbind option_bind] in Hstep.
    destruct ia; [|discriminate Hstep].
    destruct (Hquiz eq_refl) as (Hlen & Hidx & Hpos & Hle).
    destruct Hstats as (Hstreak & Hgoal & Hxp & Htoday & Hnodup).
    unfold nextQuestion, finishQuiz, gainedXp in Hstep.
    cbn [quizSession currentQIdx score] in Hstep.
    destruct (Z.of_nat qi <? Z.of_nat (length qs) - 1)%Z eqn:Hlast;
      [apply Z.ltb_lt in Hlast | apply Z.ltb_ge in Hlast];
      wf_finish Hstep; repeat split; try assumption; try lia.
Qed.

Lemma initial_world_well_formed : well_formed initial_world.
Proof.
  constructor; cbn; intros; try tauto; try discriminate;
    try (intuition discriminate).
  repeat split; try lia. constructor.
Qed.

Lemma reachable_well_formed (E : Engine) (w : World) :
  rearranges E -> reachable E w -> well_formed w.
Proof.
  intros HE Hreach. induction Hreach as [|e w w' _ IH Hstep].
  - exact initial_world_well_formed.
  - exact (react_well_formed E e w w' HE IH Hstep).
Qed.

Lemma run_reachable (E : Engine) (events : list event) (w w' : World) :
  reachable E w -> run E events w = Some w' -> reachable E w'.
Proof.
  revert w. induction events as [|e rest IH]; intros w Hreach Hrun.
  - injection Hrun as <-. exact Hreach.
  - simpl in Hrun. destruct (react E e w) as [w1|] eqn:Hstep;
      [|discriminate Hrun].
    apply (IH w1); [|exact Hrun]. exact (reachable_step E e w w1 Hreach Hstep).
Qed.

Lemma visited_world_reachable : reachable insertion_engine visited_world.
Proof.
  apply (run_reachable insertion_engine sample_visit initial_world).
  - constructor.
  - reflexivity.
Qed.

(** [generateQuiz] returns (with fuel above the count) whenever the bank
    of the bundle, if it has one, is an array of the store. *)
Lemma generateQuiz_returns (E : Engine) (random : nat -> Draw) (fuel : nat)
  (s : State) (st : Store) :
  rearranges E -> count (quizConfig s) < fuel ->
  (forall d b, activeData s = Some d -> quizBank d = Some b -> b < length st) ->
  is_Some (generateQuiz E random fuel s st).
Proof.
  intros HE Hfuel Hvalid.
  destruct (activeData s) as [d|] eqn:Hd.
  2: { unfold generateQuiz. rewrite Hd. eauto. }
  destruct (quizBank d) as [b|] eqn:Hb.
  2: { unfold generateQuiz.
       replace (activeData s ≫= quizBank) with (@None nat)
         by (rewrite Hd; symmetry; exact Hb).
       eauto. }
  assert (activeData s ≫= quizBank = Some b) as Href
    by (rewrite Hd; exact Hb).
  destruct (lookup_lt_is_Some_2 st b (Hvalid d b eq_refl Hb)) as [bank Hbank].
  destruct bank as [|q0 bank'].
  { unfold generateQuiz, array_length. rewrite Href, Hbank. cbn. eauto. }
  destruct (generateQuiz_spec E random fuel s st d b (q0 :: bank')
              HE Hd Hb Hbank ltac:(discriminate) Hfuel)
    as (extra & sorted & _ & _ & _ & Hrun).
  rewrite Hrun. eauto.
Qed.

(** X11: in every world the component can reach, the number of questions
    requested is 3, 5 or 10. *)
Theorem reachable_count_offered (E : Engine) (w : World) :
  rearranges E -> reachable E w ->
  count (quizConfig (ui w)) = 3 \/ count (quizConfig (ui w)) = 5 \/
  count (quizConfig (ui w)) = 10.
Proof.
  intros HE Hreach. exact (wf_count w (reachable_well_formed E w HE Hreach)).
Qed.

Lemma reachable_count_offered_witness :
  count (quizConfig (ui visited_world)) = 3 \/
  count (quizConfig (ui visited_world)) = 5 \/
  count (quizConfig (ui visited_world)) = 10.
Proof.
  exact (reachable_count_offered insertion_engine visited_world
           insertion_engine_rearranges visited_world_reachable).
Defined.

(** X12: at most one request is awaited at a time: in every reachable world
    the loading flag tells whether a request is awaited, a request is
    awaited exactly on the analyzing view, while it is awaited the
    component reacts to nothing but its end, and a request never ends
    while none is awaited. *)
Theorem reachable_single_request (E : Engine) (w : World) :
  rearranges E -> reachable E w ->
  isLoading (ui w) = pending w /\
  (pending w = true <-> view (ui w) = analyzing) /\
  (pending w = true ->
   forall e w', react E e w = Some w' -> exists o, e = Settle o) /\
  (pending w = false -> forall o, react E (Settle o) w = None).
Proof.
  intros HE Hreach.
  destruct (reachable_well_formed E w HE Hreach)
    as [_ Hload Han _ _ _ _ _ _ _ _].
  split; [assumption|]. split; [assumption|]. split.
  - intros Hp e w' Hstep. apply Han in Hp.
    destruct w as [s st p]. cbn [ui] in Hp.
    unfold react in Hstep. cbn [ui] in Hstep. rewrite Hp in Hstep.
    destruct e; try discriminate Hstep. eauto.
  - intros Hp o. destruct w as [s st p]. cbn [pending] in Hp. subst p.
    unfold react. cbn [ui pending]. destruct (view s); reflexivity.
Qed.

Lemma reachable_single_request_witness :
  isLoading (ui visited_world) = pending visited_world /\
  (pending visited_world = true <-> view (ui visited_world) = analyzing) /\
  (pending visited_world = true ->
   forall e w', react insertion_engine e visited_world = Some w' ->
                exists o, e = Settle o) /\
  (pending visited_world = false ->
   forall o, react insertion_engine (Settle o) visited_world = None).
Proof.
  exact (reachable_single_request insertion_engine visited_world
           insertion_engine_rearranges visited_world_reachable).
Defined.

(** X13: nothing the views read is ever missing: in every reachable world, the
    study, setup and quiz views have a bundle to show, and the quiz view
    has a current question (its fallback text for a missing question is
    never shown). *)
Theorem reachable_nothing_missing (E : Engine) (w : World) :
  rearranges E -> reachable E w ->
  (view (ui w) = study \/ view (ui w) = quiz_setup \/ view (ui w) = quiz ->
   is_Some (activeData (ui w))) /\
  (view (ui w) = quiz ->
   is_Some (quizSession (ui w) !! currentQIdx (ui w))).
Proof.
  intros HE Hreach.
  destruct (reachable_well_formed E w HE Hreach)
    as [_ _ _ Hdata _ Hquiz _ _ _ _ _].
  split; [assumption|]. intros Hv.
  apply lookup_lt_is_Some_2. now apply Hquiz.
Qed.

Lemma reachable_nothing_missing_witness :
  (view (ui visited_world) = study \/ view (ui visited_world) = quiz_setup \/
   view (ui visited_world) = quiz ->
   is_Some (activeData (ui visited_world))) /\
  (view (ui visited_world) = quiz ->
   is_Some (quizSession (ui visited_world)
              !! currentQIdx (ui visited_world))).
Proof.
  exact (reachable_nothing_missing insertion_engine visited_world
           insertion_engine_rearranges visited_world_reachable).
Defined.

(** X14: the score is bounded by the session: in every reachable world on the
    quiz or the result view, the session has as many questions as were
    requested and the score lies between 0 and that number; on the quiz
    view it is at most the number of questions answered so far. *)
Theorem reachable_score_bounded (E : Engine) (w : World) :
  rearranges E -> reachable E w ->
  view (ui w) = quiz \/ view (ui w) = result ->
  length (quizSession (ui w)) = count (quizConfig (ui w)) /\
  (0 <= score (ui w) <= Z.of_nat (length (quizSession (ui w))))%Z /\
  (view (ui w) = quiz ->
   (score (ui w) <= Z.of_nat (currentQIdx (ui w))
                    + (if isAnswered (ui w) then 1 else 0))%Z).
Proof.
  intros HE Hreach Hv.
  destruct (reachable_well_formed E w HE Hreach)
    as [_ _ _ _ _ Hquiz Hres _ _ _ _].
  destruct Hv as [Hv | Hv].
  - destruct (Hquiz Hv) as (Hlen & Hidx & Hpos & Hle).
    split; [assumption|]. split.
    + split; [assumption|]. destruct (isAnswered (ui w)); lia.
    + intros _. assumption.
  - destruct (Hres Hv) as (Hlen & Hscore).
    split; [assumption|]. split; [assumption|].
    intros Hq. rewrite Hv in Hq. discriminate Hq.
Qed.

Lemma reachable_score_bounded_witness :
  length (quizSession (ui visited_world))
    = count (quizConfig (ui visited_world)) /\
  (0 <= score (ui visited_world)
     <= Z.of_nat (length (quizSession (ui visited_world))))%Z /\
  (view (ui visited_world) = quiz ->
   (score (ui visited_world)
      <= Z.of_nat (currentQIdx (ui visited_world))
         + (if isAnswered (ui visited_world) then 1 else 0))%Z).
Proof.
  apply (reachable_score_bounded insertion_engine visited_world
           insertion_engine_rearranges visited_world_reachable).
  left. reflexivity.
Defined.

(** X15: what the statistics never do: in every reachable world the streak is
    still 12 and the goal still 100; the experience never falls below its
    initial 1250 and is always 1210 above today's (whatever is added to
    one is added to the other); the saved surface forms are pairwise
    distinct. *)
Theorem reachable_statistics (E : Engine) (w : World) :
  rearranges E -> reachable E w ->
  streak (userStats (ui w)) = 12%Z /\ goalXp (userStats (ui w)) = 100%Z /\
  xp (userStats (ui w)) = (todayXp (userStats (ui w)) + 1210)%Z /\
  (1250 <= xp (userStats (ui w)))%Z /\
  NoDup (saved_forms (ui w)).
Proof.
  intros HE Hreach.
  destruct (reachable_well_formed E w HE Hreach)
    as [_ _ _ _ _ _ _ (Hstreak & Hgoal & Hxp & Htoday & Hnodup) _ _ _].
  repeat split; try assumption. lia.
Qed.

Lemma reachable_statistics_witness :
  streak (userStats (ui visited_world)) = 12%Z /\
  goalXp (userStats (ui visited_world)) = 100%Z /\
  xp (userStats (ui visited_world))
    = (todayXp (userStats (ui visited_world)) + 1210)%Z /\
  (1250 <= xp (userStats (ui visited_world)))%Z /\
  NoDup (saved_forms (ui visited_world)).
Proof.
  exact (reachable_statistics insertion_engine visited_world
           insertion_engine_rearranges visited_world_reachable).
Defined.

(** X16: as long as the bodies of the [ok] answers have the shape the
    collaborator documents (the [ok] bodies an [event] can carry: the code
    itself does not validate them), no handler throws and the padding loop
    always ends: in every reachable world, a progress tick on the study
    view, the generate button on the setup view, and on the quiz view the
    check button (once an option is selected) and the button that goes on
    (once the answer is checked) all lead to a next render. *)
Theorem reachable_controls_respond (E : Engine) (w : World) :
  rearranges E -> reachable E w ->
  (view (ui w) = study ->
   forall t, is_Some (react E (Progress t) w)) /\
  (view (ui w) = quiz_setup ->
   forall random, is_Some (react E (ClickGenerate random) w)) /\
  (view (ui w) = quiz -> isAnswered (ui w) = false ->
   is_Some (selectedOpt (ui w)) -> is_Some (react E ClickCheck w)) /\
  (view (ui w) = quiz -> isAnswered (ui w) = true ->
   is_Some (react E ClickNext w)).
Proof.
  intros HE Hreach.
  destruct (reachable_well_formed E w HE Hreach)
    as [_ _ _ Hdata Hbank Hquiz _ _ _ _ _].
  destruct w as [[vw tb url ad ld em us pl ci qc qs qi so ia ic sc] st p].
  cbn in Hdata, Hbank, Hquiz. unfold react, rerender, rerender_with. cbn.
  repeat split.
  - intros -> t.
    destruct (Hdata (or_introl eq_refl)) as [d ->].
    unfold onProgress. cbn. destruct (script d); cbn; eauto.
  - intros -> random.
    match goal with |- context [generateQuiz E random ?f ?s st] =>
      destruct (generateQuiz_returns E random f s st HE
                  (Nat.lt_succ_diag_r _) Hbank) as [r ->] end.
    cbn. eauto.
  - intros -> -> [c ->].
    destruct (Hquiz eq_refl) as (_ & Hidx & _).
    destruct (lookup_lt_is_Some_2 _ _ Hidx) as [q Hq].
    unfold checkAnswer. cbn. rewrite Hq. cbn. eauto.
  - intros -> ->.
    destruct (Hquiz eq_refl) as (_ & Hidx & _).
    destruct (lookup_lt_is_Some_2 _ _ Hidx) as [q Hq].
    rewrite Hq. cbn. eauto.
Qed.

Lemma reachable_controls_respond_witness :
  (view (ui visited_world) = study ->
   forall t, is_Some (react insertion_engine (Progress t) visited_world)) /\
  (view (ui visited_world) = quiz_setup ->
   forall random,
     is_Some (react insertion_engine (ClickGenerate random) visited_world)) /\
  (view (ui visited_world) = quiz -> isAnswered (ui visited_world) = false ->
   is_Some (selectedOpt (ui visited_world)) ->
   is_Some (react insertion_engine ClickCheck visited_world)) /\
  (view (ui visited_world) = quiz -> isAnswered (ui visited_world) = true ->
   is_Some (react insertion_engine ClickNext visited_world)).
Proof.
  exact (reachable_controls_respond insertion_engine visited_world
           insertion_engine_rearranges visited_world_reachable).
Defined.

(** X17: the verdict shown agrees with the colours of the options: in every
    reachable world that shows an answered question, an option is selected;
    if the verdict is "correct" the selected option is green and no option
    is red; if it is "wrong" the selected option is red and is the only red
    one; and the green option is the question's answer in both cases. *)
Theorem reachable_feedback_agrees (E : Engine) (w : World) :
  rearranges E -> reachable E w ->
  view (ui w) = quiz -> isAnswered (ui w) = true ->
  exists q idx,
    quizSession (ui w) !! currentQIdx (ui w) = Some q /\
    selectedOpt (ui w) = Some (Z.of_nat idx) /\
    (isCorrect (ui w) = true ->
     stateStyle (ui w) q idx = green /\
     forall i, stateStyle (ui w) q i <> red) /\
    (isCorrect (ui w) = false ->
     stateStyle (ui w) q idx = red /\
     forall i, stateStyle (ui w) q i = red -> i = idx) /\
    (forall i, stateStyle (ui w) q i = green <-> Z.of_nat i = answer (base q)).
Proof.
  intros HE Hreach Hv Hans.
  destruct (reachable_well_formed E w HE Hreach)
    as [_ _ _ _ _ _ _ _ Hsel Hfb _].
  destruct (Hfb Hv Hans) as (q & Hq & [c Hc] & Hverdict).
  destruct (Hsel Hv c Hc) as [idx ->].
  exists q, idx. split; [assumption|]. split; [assumption|].
  unfold stateStyle. rewrite Hans, Hverdict, Hc. clear.
  split; [|split].
  - intros Hok. apply bool_decide_eq_true_1 in Hok. injection Hok as Hok.
    split.
    + now rewrite bool_decide_eq_true_2.
    + intros i. case_bool_decide as H1; [discriminate|].
      case_bool_decide as H2; [|discriminate].
      injection H2 as H2. exfalso. apply H1. congruence.
  - intros Hbad. apply bool_decide_eq_false_1 in Hbad. split.
    + rewrite bool_decide_eq_false_2 by (intros Hx; apply Hbad; congruence).
      now rewrite bool_decide_eq_true_2.
    + intros i. case_bool_decide as H1; [discriminate|].
      case_bool_decide as H2; [|discriminate].
      intros _. injection H2 as H2. now apply Nat2Z.inj.
  - intros i. case_bool_decide as H1; [tauto|].
    case_bool_decide; split; intros; try discriminate; contradiction.
Qed.

Lemma reachable_feedback_agrees_witness :
  exists q idx,
    quizSession (ui visited_world) !! currentQIdx (ui visited_world) = Some q /\
    selectedOpt (ui visited_world) = Some (Z.of_nat idx) /\
    (isCorrect (ui visited_world) = true ->
     stateStyle (ui visited_world) q idx = green /\
     forall i, stateStyle (ui visited_world) q i <> red) /\
    (isCorrect (ui visited_world) = false ->
     stateStyle (ui visited_world) q idx = red /\
     forall i, stateStyle (ui visited_world) q i = red -> i = idx) /\
    (forall i, stateStyle (ui visited_world) q i = green
               <-> Z.of_nat i = answer (base q)).
Proof.
  apply (reachable_feedback_agrees insertion_engine visited_world
           insertion_engine_rearranges visited_world_reachable).
  - reflexivity.
  - reflexivity.
Defined.

Lemma finished_world_reachable : reachable insertion_engine finished_world.
Proof.
  apply (run_reachable insertion_engine finished_visit initial_world).
  - constructor.
  - reflexivity.
Qed.

(** X18: the result view is only shown after the last question was answered:
    in every reachable world on the result view, the current question is
    the last of the session and its answer has been checked. *)
Theorem reachable_result_after_last_answer (E : Engine) (w : World) :
  rearranges E -> reachable E w -> view (ui w) = result ->
  S (currentQIdx (ui w)) = length (quizSession (ui w)) /\
  isAnswered (ui w) = true.
Proof.
  intros HE Hreach Hv.
  exact (wf_finished w (reachable_well_formed E w HE Hreach) Hv).
Qed.

Lemma reachable_result_after_last_answer_witness :
  S (currentQIdx (ui finished_world)) = length (quizSession (ui finished_world))
  /\ isAnswered (ui finished_world) = true.
Proof.
  apply (reachable_result_after_last_answer insertion_engine finished_world
           insertion_engine_rearranges finished_world_reachable).
  reflexivity.
Defined.

(** X19: a tick never sets an index outside the transcript. *)
Theorem onProgress_index_in_range (t : Q) (s : State) (d : StudyBundle)
  (lines : list TranscriptLine) (us : list update) (i : nat) :
  activeData s = Some d -> script d = Some lines ->
  onProgress t s = Some us -> SetCurrentScriptIdx i ∈ us ->
  i < length lines.
Proof.
  intros Hd Hs Hrun Hi.
  destruct (onProgress_never_last t s d lines us i Hd Hs Hrun Hi) as [-> | Hlt];
    [|lia].
  unfold onProgress in Hrun. rewrite Hd in Hrun. cbn [mbind option_bind] in Hrun.
  rewrite Hs in Hrun. injection Hrun as <-.
  destruct lines as [|l0 lines']; [|simpl; lia].
  inversion Hi.
Qed.

Lemma onProgress_index_in_range_witness :
  1 < length [line_at 0; line_at 5; line_at 10].
Proof.
  apply (onProgress_index_in_range 7
           (commit [SetCurrentScriptIdx 0] study_state) sample_bundle
           [line_at 0; line_at 5; line_at 10] [SetCurrentScriptIdx 1] 1).
  - reflexivity.
  - reflexivity.
  - reflexivity.
  - now left.
Defined.
